(** * The model store of the MeTTa AI assistant front end

    A shallow embedding of [Frontend/src/store/useModelStore.ts]: the
    zustand store holding the list of model profiles and the id of the
    active one, and its four asynchronous operations [addModel],
    [updateModel], [setActive] and [removeModel], each of which may await
    one request to the key management service before it commits.

    Objects are modelled as they exist at run time: finite maps from
    property names to JavaScript values, so that the rest pattern
    [{ apiKey, ...safeModel }], the spread [{ ...m, ...updates }] and the
    test ['apiKey' in updates] keep their meaning. One call of an
    operation is run from its first statement to its last: calls that
    overlap in time are outside this development. *)

From Stdlib Require Import List.
From stdpp Require Import base decidable option list strings gmap fin_maps.

Open Scope string_scope.
Open Scope list_scope.

(** ** JavaScript values and objects *)

(** The values the fields of a [Model] can hold. [VUndef] is [undefined]:
    what reading an absent property gives, and also a value a present
    property may hold. *)
Inductive value : Type :=
  | VUndef
  | VStr (s : string)
  | VBool (b : bool).

#[global] Instance value_eq_dec : EqDecision value.
Proof. solve_decision. Defined.

(** A plain object: [Model], [StoredModel = Omit<Model, 'apiKey'>] and
    [Partial<Model>] are one and the same thing once the types are erased. *)
Abbreviation JsObject := (gmap string value).

(** ToBoolean. *)
Definition truthy (v : value) : bool :=
  match v with
  | VUndef => false
  | VStr s => negb (String.eqb s "")
  | VBool b => b
  end.

(** [a === b]. *)
Definition strict_eq (a b : value) : bool := bool_decide (a = b).

(** [a && b] and [a || b], which return one of their operands. *)
Definition js_and (a b : value) : value := if truthy a then b else a.
Definition js_or (a b : value) : value := if truthy a then a else b.

(** [o.k]: an absent property reads as [undefined]. *)
Definition prop (o : JsObject) (k : string) : value := default VUndef (o !! k).

(** [o?.k], where [o] may be [undefined] (here [None]). *)
Definition opt_prop (o : option JsObject) (k : string) : value :=
  match o with
  | Some m => prop m k
  | None => VUndef
  end.

(** ['k' in o]. *)
Definition has_key (k : string) (o : JsObject) : bool := bool_decide (is_Some (o !! k)).

(** [{ ...a, ...b }]: the properties of [b] win, also those holding
    [undefined]. *)
Definition spread (a b : JsObject) : JsObject := b ∪ a.

(** ** The store *)

Record ModelState : Type := mkState {
  models : list JsObject;
  activeId : value
}.

(** What a [set] call passes: some of the fields of the state. zustand
    merges it shallowly into the current state. *)
Record PartialState : Type := mkPartial {
  new_models : option (list JsObject);
  new_activeId : option value
}.

Definition merge (st : ModelState) (p : PartialState) : ModelState :=
  {| models := default (models st) (new_models p);
     activeId := default (activeId st) (new_activeId p) |}.

(** ** The key management service and asynchronous operations *)

(** A request to [kmsService]. *)
Inductive KmsCall : Type :=
  | StoreAPIKey (provider_name api_key : value)
  | DeleteAPIKey (provider_name : value).

#[global] Instance KmsCall_eq_dec : EqDecision KmsCall.
Proof. solve_decision. Defined.

(** The service is external: for each request it either fulfils ([None])
    or rejects with a reason. *)
Definition Service : Type := KmsCall -> option string.

Inductive Error : Type :=
  | CredentialError (reason : string)
  | TypeError.

Inductive Settled (A : Type) : Type :=
  | Fulfilled (a : A)
  | Rejected (e : Error).
Arguments Fulfilled {A} a.
Arguments Rejected {A} e.

(** One run of an operation: the store it leaves, the requests it sent to
    the service, in order, and how its promise settled. *)
Record Run (A : Type) : Type := mkRun {
  store_after : ModelState;
  requests : list KmsCall;
  settled : Settled A
}.
Arguments mkRun {A} _ _ _.
Arguments store_after {A} _.
Arguments requests {A} _.
Arguments settled {A} _.

Definition Async (A : Type) : Type := Service -> ModelState -> Run A.

Definition ret {A} (a : A) : Async A :=
  fun _ st => mkRun st [] (Fulfilled a).

Definition bind {A B} (m : Async A) (f : A -> Async B) : Async B :=
  fun svc st =>
    let r := m svc st in
    match settled r with
    | Fulfilled a =>
        let r' := f a svc (store_after r) in
        mkRun (store_after r') (requests r ++ requests r') (settled r')
    | Rejected e => mkRun (store_after r) (requests r) (Rejected e)
    end.

Notation "'let*' x ':=' m 'in' k" := (bind m (fun x => k))
  (at level 10, x name, m at level 100, k at level 200).
Notation "m '>>' k" := (bind m (fun _ => k))
  (at level 100, k at level 200, right associativity).

(** [get()]. *)
Definition get : Async ModelState :=
  fun _ st => mkRun st [] (Fulfilled st).

(** [set(state => partial)]. *)
Definition set (f : ModelState -> PartialState) : Async unit :=
  fun _ st => mkRun (merge st (f st)) [] (Fulfilled tt).

(** [await] of a request: the request is sent, and a rejection is thrown
    on to the caller of the operation. *)
Definition await (c : KmsCall) : Async unit :=
  fun svc st =>
    mkRun st [c]
      match svc c with
      | None => Fulfilled tt
      | Some reason => Rejected (CredentialError reason)
      end.

(** Reading a property of [undefined] throws. *)
Definition deref (o : option JsObject) : Async JsObject :=
  match o with
  | Some m => ret m
  | None => fun _ st => mkRun st [] (Rejected TypeError)
  end.

Module kmsService.

Definition storeAPIKey (provider_name api_key : value) : Async unit :=
  await (StoreAPIKey provider_name api_key).

Definition deleteAPIKey (provider_name : value) : Async unit :=
  await (DeleteAPIKey provider_name).

End kmsService.

(** ** The operations *)

Definition DEFAULT_MODELS : list JsObject :=
  [ {[ "id" := VStr "default";
       "name" := VStr "default";
       "provider" := VStr "default";
       "requiresApiKey" := VBool false ]} ].

(** [DEFAULT_MODELS[0].id]. *)
Definition initial_state : ModelState :=
  {| models := DEFAULT_MODELS;
     activeId := opt_prop (head DEFAULT_MODELS) "id" |}.

(** [models.find(m => m.id === id)]. *)
Definition find_by_id (id : value) (ms : list JsObject) : option JsObject :=
  List.find (fun m => strict_eq (prop m "id") id) ms.

(** [models.filter(m => m.id !== id)]. *)
Definition without_id (id : value) (ms : list JsObject) : list JsObject :=
  List.filter (fun m => negb (strict_eq (prop m "id") id)) ms.

Definition addModel (model : JsObject) : Async unit :=
  let apiKey := prop model "apiKey" in
  let safeModel := delete "apiKey" model in
  (if truthy (js_and apiKey (prop model "provider"))
   then kmsService.storeAPIKey (prop model "provider") apiKey
   else ret tt) >>
  set (fun state =>
    {| new_models := Some (models state ++ [ <["isCustom" := VBool true]> safeModel ]);
       new_activeId := Some (prop model "id") |}).

Definition updateModel (id : string) (updates : JsObject) : Async unit :=
  (if truthy (js_and (VBool (has_key "apiKey" updates)) (prop updates "provider"))
   then
     if truthy (prop updates "apiKey")
     then kmsService.storeAPIKey (prop updates "provider") (prop updates "apiKey")
     else kmsService.deleteAPIKey (prop updates "provider")
   else ret tt) >>
  set (fun state =>
    {| new_models :=
         Some (List.map
                 (fun m => if strict_eq (prop m "id") (VStr id) then spread m updates else m)
                 (models state));
       new_activeId := None |}).

Definition setActive (id : string) : Async unit :=
  let* st := get in
  let previousModel := find_by_id (activeId st) (models st) in
  let newModel := find_by_id (VStr id) (models st) in
  if truthy (js_and (js_and (VBool (strict_eq (opt_prop newModel "provider") (VStr "default")))
                            (opt_prop previousModel "isCustom"))
                    (opt_prop previousModel "provider"))
  then
    let* previous := deref previousModel in
    kmsService.deleteAPIKey (prop previous "provider") >>
    set (fun state =>
      {| new_models := Some (without_id (prop previous "id") (models state));
         new_activeId := Some (VStr id) |})
  else
    set (fun _ => {| new_models := None; new_activeId := Some (VStr id) |}).

Definition removeModel (id : string) : Async unit :=
  let* st := get in
  let model := find_by_id (VStr id) (models st) in
  (if truthy (opt_prop model "provider")
   then kmsService.deleteAPIKey (opt_prop model "provider")
   else ret tt) >>
  set (fun state =>
    {| new_models := Some (without_id (VStr id) (models state));
       new_activeId :=
         Some (if strict_eq (activeId state) (VStr id)
               then js_or (opt_prop (head (models state)) "id") (VStr "")
               else activeId state) |}).

(** ** Operations as data, and the states the store can reach *)

Inductive Op : Type :=
  | AddModel (model : JsObject)
  | UpdateModel (id : string) (updates : JsObject)
  | SetActive (id : string)
  | RemoveModel (id : string).

Definition perform (op : Op) : Async unit :=
  match op with
  | AddModel model => addModel model
  | UpdateModel id updates => updateModel id updates
  | SetActive id => setActive id
  | RemoveModel id => removeModel id
  end.

(** The states reached from the initial one by any sequence of operations,
    whatever the service answers. *)
Inductive reachable : ModelState -> Prop :=
  | reachable_initial : reachable initial_state
  | reachable_step st op svc :
      reachable st -> reachable (store_after (perform op svc st)).

(** A service that fulfils every request. *)
Definition kms_ok : Service := fun _ => None.

(** A service that rejects every request with the given reason. *)
Definition kms_down (reason : string) : Service := fun _ => Some reason.

(** ** The properties of the store *)

(** The ids of the stored models, in order. *)
Definition ids (st : ModelState) : list value :=
  List.map (fun m => prop m "id") (models st).

(** Every id in the store is unique. *)
Definition unique_ids (st : ModelState) : Prop := NoDup (ids st).

(** The active id names a stored model, or is [""] in an empty store. *)
Definition active_valid (st : ModelState) : Prop :=
  activeId st ∈ ids st \/ (models st = [] /\ activeId st = VStr "").

(** A stored model holds no [apiKey] property. *)
Definition secret_free (m : JsObject) : Prop := m !! "apiKey" = None.

(** ** Every operation is one optional request followed by one commit *)

(** The shape shared by the four operations: at most one request is
    awaited, and the state is written only once it is fulfilled. *)
Definition request_then_commit (req : option KmsCall) (p : PartialState) : Async unit :=
  fun svc st =>
    match req with
    | None => mkRun (merge st p) [] (Fulfilled tt)
    | Some c =>
        match svc c with
        | None => mkRun (merge st p) [c] (Fulfilled tt)
        | Some reason => mkRun st [c] (Rejected (CredentialError reason))
        end
    end.

(** The request each operation sends, if any, read off the source. *)
Definition addModel_request (model : JsObject) : option KmsCall :=
  if truthy (prop model "apiKey") && truthy (prop model "provider")
  then Some (StoreAPIKey (prop model "provider") (prop model "apiKey"))
  else None.

Definition updateModel_request (updates : JsObject) : option KmsCall :=
  if has_key "apiKey" updates && truthy (prop updates "provider")
  then Some (if truthy (prop updates "apiKey")
             then StoreAPIKey (prop updates "provider") (prop updates "apiKey")
             else DeleteAPIKey (prop updates "provider"))
  else None.

(** The test of [setActive], on the two entries it looks up. *)
Definition discards (newModel previousModel : option JsObject) : bool :=
  strict_eq (opt_prop newModel "provider") (VStr "default")
  && truthy (opt_prop previousModel "isCustom")
  && truthy (opt_prop previousModel "provider").

Definition setActive_request (st : ModelState) (id : string) : option KmsCall :=
  let previousModel := find_by_id (activeId st) (models st) in
  if discards (find_by_id (VStr id) (models st)) previousModel
  then Some (DeleteAPIKey (opt_prop previousModel "provider"))
  else None.

Definition removeModel_request (st : ModelState) (id : string) : option KmsCall :=
  let model := find_by_id (VStr id) (models st) in
  if truthy (opt_prop model "provider")
  then Some (DeleteAPIKey (opt_prop model "provider"))
  else None.

(** What each operation commits, read off its [set] call. *)
Definition addModel_commit (st : ModelState) (model : JsObject) : PartialState :=
  {| new_models := Some (models st ++ [ <["isCustom" := VBool true]> (delete "apiKey" model) ]);
     new_activeId := Some (prop model "id") |}.

Definition updateModel_commit (st : ModelState) (id : string) (updates : JsObject) : PartialState :=
  {| new_models :=
       Some (List.map
               (fun m => if strict_eq (prop m "id") (VStr id) then spread m updates else m)
               (models st));
     new_activeId := None |}.

Definition setActive_commit (st : ModelState) (id : string) : PartialState :=
  let previousModel := find_by_id (activeId st) (models st) in
  if discards (find_by_id (VStr id) (models st)) previousModel
  then {| new_models := Some (without_id (opt_prop previousModel "id") (models st));
          new_activeId := Some (VStr id) |}
  else {| new_models := None; new_activeId := Some (VStr id) |}.

Definition removeModel_commit (st : ModelState) (id : string) : PartialState :=
  {| new_models := Some (without_id (VStr id) (models st));
     new_activeId :=
       Some (if strict_eq (activeId st) (VStr id)
             then js_or (opt_prop (head (models st)) "id") (VStr "")
             else activeId st) |}.

Definition request_of (op : Op) (st : ModelState) : option KmsCall :=
  match op with
  | AddModel model => addModel_request model
  | UpdateModel _ updates => updateModel_request updates
  | SetActive id => setActive_request st id
  | RemoveModel id => removeModel_request st id
  end.

Definition commit_of (op : Op) (st : ModelState) : PartialState :=
  match op with
  | AddModel model => addModel_commit st model
  | UpdateModel id updates => updateModel_commit st id updates
  | SetActive id => setActive_commit st id
  | RemoveModel id => removeModel_commit st id
  end.

(** ** Sample profiles and states, and the conditions the theorems use *)

Definition gpt_profile : JsObject :=
  {[ "id" := VStr "gpt"; "name" := VStr "GPT"; "provider" := VStr "openai";
     "requiresApiKey" := VBool true; "apiKey" := VStr "sk-123" ]}.

Definition gpt_stored : JsObject :=
  {[ "id" := VStr "gpt"; "name" := VStr "GPT"; "provider" := VStr "openai";
     "requiresApiKey" := VBool true; "isCustom" := VBool true ]}.

(** The store once [gpt_profile] has been added to the initial one. *)
Definition gpt_state : ModelState :=
  {| models := DEFAULT_MODELS ++ [gpt_stored]; activeId := VStr "gpt" |}.

(** The requests [updateModel] sends for a given [updates] object. *)
Definition updateModel_expected_requests (updates : JsObject) : list KmsCall :=
  if has_key "apiKey" updates && truthy (prop updates "provider")
  then [ if truthy (prop updates "apiKey")
         then StoreAPIKey (prop updates "provider") (prop updates "apiKey")
         else DeleteAPIKey (prop updates "provider") ]
  else [].

(** Modelled from the spec: the [Model] interface of [../types], which the
    store imports, is not among the sources. The spec gives [isCustom] as a
    boolean and [provider] as a string; the built-in default profile has no
    [isCustom], so either may be absent. *)
Definition typed_entry (m : JsObject) : bool :=
  match prop m "isCustom" with VStr _ => false | _ => true end
  && match prop m "provider" with VBool _ => false | _ => true end.

(** A provider that is set: a string that is not empty. *)
Definition provider_set (v : value) : bool :=
  match v with
  | VStr s => negb (String.eqb s "")
  | _ => false
  end.

(** The transition rule in the words of the specification: the entry
    matching the requested id has provider ["default"], the entry matching
    the current active id has [isCustom = true], and that entry's provider
    is set. *)
Definition returns_to_default (newModel previousModel : option JsObject) : bool :=
  match newModel, previousModel with
  | Some new, Some previous =>
      bool_decide (prop new "provider" = VStr "default")
      && bool_decide (prop previous "isCustom" = VBool true)
      && provider_set (prop previous "provider")
  | _, _ => false
  end.

(** A profile added at run time with the provider of the built-in one. *)
Definition scratch_profile : JsObject :=
  {[ "id" := VStr "scratch"; "name" := VStr "Scratch"; "provider" := VStr "default";
     "requiresApiKey" := VBool false ]}.

Definition scratch_state : ModelState :=
  store_after (addModel scratch_profile kms_ok initial_state).

(** An update that leaves the [id] key alone, or repeats the id it is
    addressed to. *)
Definition keeps_id (id : string) (updates : JsObject) : Prop :=
  updates !! "id" = None \/ updates !! "id" = Some (VStr id).

Definition duplicate_profile : JsObject :=
  {[ "id" := VStr "default"; "name" := VStr "Mine"; "provider" := VStr "openai";
     "requiresApiKey" := VBool true ]}.

(** The calls under which the ids stay unique. *)
Definition keeps_ids_unique (op : Op) (st : ModelState) : Prop :=
  match op with
  | AddModel model => prop model "id" ∉ ids st
  | UpdateModel id updates => keeps_id id updates
  | SetActive _ | RemoveModel _ => True
  end.

(** The calls under which the active id keeps naming a stored model:
    any [addModel]; [updateModel] with updates that leave the id alone;
    [setActive] of the id of a stored model which the call does not itself
    discard; [removeModel] of a model that is not the active one, or, when
    it is, if the first entry of [models] (when there is one) has a string
    id other than the removed one. *)
Definition keeps_active_valid (op : Op) (st : ModelState) : Prop :=
  match op with
  | AddModel _ => True
  | UpdateModel id updates => keeps_id id updates
  | SetActive id =>
      VStr id ∈ ids st
      /\ (activeId st = VStr id ->
          discards (find_by_id (VStr id) (models st))
                   (find_by_id (activeId st) (models st)) = false)
  | RemoveModel id =>
      activeId st <> VStr id
      \/ match head (models st) with
         | None => True
         | Some first => exists s, prop first "id" = VStr s /\ s <> id
         end
  end.

(** An update of the key of the profile added above. *)
Definition new_key_updates : JsObject :=
  {[ "provider" := VStr "openai"; "apiKey" := VStr "sk-456" ]}.

Definition profile_A : JsObject :=
  {[ "id" := VStr "A"; "name" := VStr "A"; "provider" := VStr "openai";
     "requiresApiKey" := VBool true; "isCustom" := VBool true ]}.

Definition profile_B : JsObject :=
  {[ "id" := VStr "B"; "name" := VStr "B"; "provider" := VStr "anthropic";
     "requiresApiKey" := VBool true; "isCustom" := VBool true ]}.

(** [models = [A, B]] with [A] active. *)
Definition state_AB : ModelState :=
  {| models := [profile_A; profile_B]; activeId := VStr "A" |}.

(** The provider a request is addressed to. *)
Definition provider_name_of (c : KmsCall) : value :=
  match c with
  | StoreAPIKey provider_name _ => provider_name
  | DeleteAPIKey provider_name => provider_name
  end.

(** The kind of request each operation may send: [addModel] only stores,
    [setActive] and [removeModel] only delete, and a stored key is truthy. *)
Definition request_allowed (op : Op) (c : KmsCall) : Prop :=
  match c, op with
  | StoreAPIKey _ api_key, (AddModel _ | UpdateModel _ _) => truthy api_key = true
  | StoreAPIKey _ _, _ => False
  | DeleteAPIKey _, AddModel _ => False
  | DeleteAPIKey _, _ => True
  end.

(** An update of the key that names no provider. *)
Definition key_only_updates : JsObject := {[ "apiKey" := VStr "sk-789" ]}.

(** A sequence of calls, each with the service as it answers during that
    call, run one after the other, a rejected call being followed by the
    next one all the same. *)
Definition run_ops (calls : list (Op * Service)) (st : ModelState) : ModelState :=
  fold_left (fun s call => store_after (perform (fst call) (snd call) s)) calls st.

(** A call whose input cannot bring a key into the store: any call but an
    [updateModel] whose [updates] has the [apiKey] key. *)
Definition carries_no_key (op : Op) : Prop :=
  match op with
  | UpdateModel _ updates => updates !! "apiKey" = None
  | _ => True
  end.

(** Any call but an [updateModel]. *)
Definition no_update (op : Op) : Prop :=
  match op with
  | UpdateModel _ _ => False
  | _ => True
  end.

(** An entry of [DEFAULT_MODELS], or an entry marked as custom. *)
Definition built_in_or_custom (m : JsObject) : Prop :=
  m ∈ DEFAULT_MODELS \/ prop m "isCustom" = VBool true.

(** * Properties *)

Lemma truthy_js_and (a b : value) : truthy (js_and a b) = truthy a && truthy b.
Proof.
  unfold js_and. destruct (truthy a) eqn:Ha; simpl; [reflexivity | exact Ha].
Qed.

Ltac run_async :=
  cbv [bind ret get set await deref kmsService.storeAPIKey kmsService.deleteAPIKey
       store_after requests settled request_then_commit app].

Lemma addModel_run (model : JsObject) (svc : Service) (st : ModelState) :
  addModel model svc st
  = request_then_commit (addModel_request model) (addModel_commit st model) svc st.
Proof.
  unfold addModel, addModel_request. rewrite truthy_js_and.
  destruct (truthy (prop model "apiKey") && truthy (prop model "provider")); run_async.
  - destruct (svc _); reflexivity.
  - reflexivity.
Qed.

Lemma updateModel_run (id : string) (updates : JsObject) (svc : Service) (st : ModelState) :
  updateModel id updates svc st
  = request_then_commit (updateModel_request updates) (updateModel_commit st id updates) svc st.
Proof.
  unfold updateModel, updateModel_request. rewrite truthy_js_and. cbn [truthy].
  destruct (has_key "apiKey" updates && truthy (prop updates "provider")).
  - destruct (truthy (prop updates "apiKey")); run_async; destruct (svc _); reflexivity.
  - run_async. reflexivity.
Qed.

(** In the branch that discards, [previousModel] is defined: the source
    reads [previousModel.provider] there without [?.]. *)
Lemma discards_previous (newModel previousModel : option JsObject) :
  discards newModel previousModel = true -> is_Some previousModel.
Proof.
  unfold discards. destruct previousModel; [eauto |].
  simpl. rewrite andb_false_r. discriminate.
Qed.

Lemma setActive_run (id : string) (svc : Service) (st : ModelState) :
  setActive id svc st
  = request_then_commit (setActive_request st id) (setActive_commit st id) svc st.
Proof.
  unfold setActive, setActive_request, setActive_commit.
  cbv [bind get store_after requests settled].
  rewrite !truthy_js_and. cbn [truthy]. fold (discards (find_by_id (VStr id) (models st))
    (find_by_id (activeId st) (models st))).
  destruct (discards _ _) eqn:Hd.
  - destruct (discards_previous _ _ Hd) as [previous ->]. run_async. simpl.
    destruct (svc _); reflexivity.
  - run_async. reflexivity.
Qed.

Lemma removeModel_run (id : string) (svc : Service) (st : ModelState) :
  removeModel id svc st
  = request_then_commit (removeModel_request st id) (removeModel_commit st id) svc st.
Proof.
  unfold removeModel, removeModel_request.
  cbv [bind get store_after requests settled].
  destruct (truthy _); run_async.
  - destruct (svc _); reflexivity.
  - reflexivity.
Qed.

Lemma perform_run (op : Op) (svc : Service) (st : ModelState) :
  perform op svc st = request_then_commit (request_of op st) (commit_of op st) svc st.
Proof.
  destruct op; simpl.
  - apply addModel_run.
  - apply updateModel_run.
  - apply setActive_run.
  - apply removeModel_run.
Qed.

Lemma gpt_state_added : store_after (addModel gpt_profile kms_ok initial_state) = gpt_state.
Proof. vm_compute. reflexivity. Qed.

Lemma gpt_state_reachable : reachable gpt_state.
Proof.
  rewrite <- gpt_state_added.
  exact (reachable_step _ (AddModel gpt_profile) kms_ok reachable_initial).
Qed.

(** ** Rejections of the service *)

Lemma perform_rejected
    (op : Op) (svc : Service) (st : ModelState) (c : KmsCall) (reason : string) :
  c ∈ requests (perform op svc st) ->
  svc c = Some reason ->
  settled (perform op svc st) = Rejected (CredentialError reason)
  /\ store_after (perform op svc st) = st.
Proof.
  rewrite perform_run. unfold request_then_commit.
  destruct (request_of op st) as [k|]; simpl.
  - destruct (svc k) eqn:Hk; simpl; intros Hc Hrej;
      apply list_elem_of_singleton in Hc; subst c.
    + split; [congruence | reflexivity].
    + congruence.
  - intros Hc. apply not_elem_of_nil in Hc. contradiction.
Qed.

(** C2. Whatever the operation ([addModel], [updateModel], [setActive] or
    [removeModel]) and the state: if the request the operation sends to the
    key management service is rejected, the operation rejects with that same
    reason, and [models] and [activeId] are afterwards what they were
    before the call. *)
Theorem rejected_request_leaves_state
    (op : Op) (svc : Service) (st : ModelState) (c : KmsCall) (reason : string) :
  c ∈ requests (perform op svc st) ->
  svc c = Some reason ->
  settled (perform op svc st) = Rejected (CredentialError reason)
  /\ models (store_after (perform op svc st)) = models st
  /\ activeId (store_after (perform op svc st)) = activeId st.
Proof.
  intros Hc Hrej.
  destruct (perform_rejected op svc st c reason Hc Hrej) as [Hs ->].
  split; [exact Hs | split; reflexivity].
Qed.

Lemma rejected_request_leaves_state_witness :
  let run := perform (AddModel gpt_profile) (kms_down "unreachable") initial_state in
  settled run = Rejected (CredentialError "unreachable")
  /\ models (store_after run) = models initial_state
  /\ activeId (store_after run) = activeId initial_state.
Proof.
  apply (rejected_request_leaves_state (AddModel gpt_profile) (kms_down "unreachable")
           initial_state (StoreAPIKey (VStr "openai") (VStr "sk-123")) "unreachable").
  - vm_compute. constructor.
  - reflexivity.
Defined.

(** ** addModel *)

(** C7. A successful [addModel(model)] appends exactly one entry at the end
    of [models], leaving the entries already there as they were; the entry
    is the input without its [apiKey] property and with [isCustom] set to
    [true], every other property being the input's; and [activeId] becomes
    the id of the input, whatever it was before. *)
Theorem addModel_appends (model : JsObject) (svc : Service) (st : ModelState) :
  settled (addModel model svc st) = Fulfilled tt ->
  exists entry : JsObject,
    store_after (addModel model svc st)
    = {| models := models st ++ [entry]; activeId := prop model "id" |}
    /\ entry = <["isCustom" := VBool true]> (delete "apiKey" model)
    /\ entry !! "apiKey" = None
    /\ entry !! "isCustom" = Some (VBool true)
    /\ (forall k, k <> "apiKey" -> k <> "isCustom" -> entry !! k = model !! k).
Proof.
  rewrite addModel_run. unfold request_then_commit.
  intros Hok. eexists. split; [| split; [reflexivity |]].
  - destruct (addModel_request model) as [c|]; [destruct (svc c) |];
      try discriminate Hok; reflexivity.
  - split; [| split].
    + rewrite lookup_insert_ne by discriminate. apply lookup_delete_eq.
    + apply lookup_insert_eq.
    + intros k Hk1 Hk2.
      rewrite lookup_insert_ne by congruence. rewrite lookup_delete_ne by congruence.
      reflexivity.
Qed.

Lemma addModel_appends_witness :
  settled (addModel gpt_profile kms_ok initial_state) = Fulfilled tt
  /\ exists entry : JsObject,
       store_after (addModel gpt_profile kms_ok initial_state)
       = {| models := models initial_state ++ [entry]; activeId := prop gpt_profile "id" |}
       /\ entry = <["isCustom" := VBool true]> (delete "apiKey" gpt_profile)
       /\ entry !! "apiKey" = None
       /\ entry !! "isCustom" = Some (VBool true)
       /\ (forall k, k <> "apiKey" -> k <> "isCustom" -> entry !! k = gpt_profile !! k).
Proof.
  split; [reflexivity |].
  apply (addModel_appends gpt_profile kms_ok initial_state). reflexivity.
Defined.

(** ** updateModel *)

Lemma updateModel_requests_eq (id : string) (updates : JsObject) (svc : Service) (st : ModelState) :
  requests (updateModel id updates svc st) = updateModel_expected_requests updates.
Proof.
  rewrite updateModel_run.
  unfold request_then_commit, updateModel_request, updateModel_expected_requests.
  destruct (has_key "apiKey" updates && truthy (prop updates "provider")); [| reflexivity].
  destruct (svc _); reflexivity.
Qed.

(** C8. [updateModel(id, updates)] sends a request to the key management
    service exactly when [updates] has the [apiKey] key (whatever value it
    holds) and [updates.provider] is truthy; the request is then the only
    one, and it is [storeAPIKey(updates.provider, updates.apiKey)] when
    [updates.apiKey] is truthy and [deleteAPIKey(updates.provider)] when it
    is not. *)
Theorem updateModel_credential_request
    (id : string) (updates : JsObject) (svc : Service) (st : ModelState) :
  (requests (updateModel id updates svc st) <> []
   <-> is_Some (updates !! "apiKey") /\ truthy (prop updates "provider") = true)
  /\ requests (updateModel id updates svc st)
     = if has_key "apiKey" updates && truthy (prop updates "provider")
       then [ if truthy (prop updates "apiKey")
              then StoreAPIKey (prop updates "provider") (prop updates "apiKey")
              else DeleteAPIKey (prop updates "provider") ]
       else [].
Proof.
  rewrite updateModel_requests_eq. unfold updateModel_expected_requests.
  split; [| reflexivity].
  unfold has_key. destruct (truthy (prop updates "provider")).
  - rewrite andb_true_r. case_bool_decide as Hin; simpl.
    + split; [intros _; split; [exact Hin | reflexivity] | discriminate].
    + split; [intros Hne; contradiction Hne; reflexivity | intros [Hk _]; contradiction].
  - rewrite andb_false_r.
    split; [intros Hne; contradiction Hne; reflexivity | intros [_ Hf]; discriminate].
Qed.

Lemma map_ids_unmatched (id : value) (f : JsObject -> JsObject) (ms : list JsObject) :
  id ∉ List.map (fun m => prop m "id") ms ->
  List.map (fun m => if strict_eq (prop m "id") id then f m else m) ms = ms.
Proof.
  induction ms as [|m ms IH]; simpl; [reflexivity |].
  intros Hnot. apply not_elem_of_cons in Hnot as [Hne Hrest].
  unfold strict_eq at 1. rewrite bool_decide_eq_false_2 by congruence.
  f_equal. apply IH, Hrest.
Qed.

(** C10. When [id] matches no entry of [models], [updateModel(id, updates)]
    leaves [models] and [activeId] as they are, and still sends the request
    that [updates] calls for: [storeAPIKey] or [deleteAPIKey] for
    [updates.provider] whenever [updates] has the [apiKey] key and
    [updates.provider] is truthy; a rejection of that request is the
    rejection of the operation. *)
Theorem updateModel_unknown_id
    (id : string) (updates : JsObject) (svc : Service) (st : ModelState) :
  VStr id ∉ ids st ->
  store_after (updateModel id updates svc st) = st
  /\ requests (updateModel id updates svc st)
     = (if has_key "apiKey" updates && truthy (prop updates "provider")
        then [ if truthy (prop updates "apiKey")
               then StoreAPIKey (prop updates "provider") (prop updates "apiKey")
               else DeleteAPIKey (prop updates "provider") ]
        else [])
  /\ (forall c reason,
        c ∈ requests (updateModel id updates svc st) -> svc c = Some reason ->
        settled (updateModel id updates svc st) = Rejected (CredentialError reason)).
Proof.
  intros Hnot. split; [| split].
  - rewrite updateModel_run. unfold request_then_commit.
    assert (Hsame : merge st (updateModel_commit st id updates) = st).
    { unfold merge, updateModel_commit; simpl.
      rewrite (map_ids_unmatched (VStr id) (fun m => spread m updates)) by exact Hnot.
      destruct st; reflexivity. }
    destruct (updateModel_request updates) as [c|]; [destruct (svc c) |]; simpl;
      congruence.
  - apply updateModel_requests_eq.
  - intros c reason Hc Hrej.
    apply (perform_rejected (UpdateModel id updates) svc st c reason Hc Hrej).
Qed.

Lemma updateModel_unknown_id_witness :
  let updates : JsObject := {[ "provider" := VStr "openai"; "apiKey" := VStr "" ]} in
  (VStr "claude" ∉ ids gpt_state)
  /\ store_after (updateModel "claude" updates kms_ok gpt_state) = gpt_state
  /\ requests (updateModel "claude" updates kms_ok gpt_state)
     = (if has_key "apiKey" updates && truthy (prop updates "provider")
        then [ if truthy (prop updates "apiKey")
               then StoreAPIKey (prop updates "provider") (prop updates "apiKey")
               else DeleteAPIKey (prop updates "provider") ]
        else [])
  /\ (forall c reason,
        c ∈ requests (updateModel "claude" updates kms_ok gpt_state) ->
        kms_ok c = Some reason ->
        settled (updateModel "claude" updates kms_ok gpt_state)
        = Rejected (CredentialError reason)).
Proof.
  intros updates.
  assert (Hnot : VStr "claude" ∉ ids gpt_state).
  { vm_compute. intros Hin. repeat (apply elem_of_cons in Hin as [Heq | Hin]; [discriminate |]).
    apply not_elem_of_nil in Hin. exact Hin. }
  split; [exact Hnot |].
  exact (updateModel_unknown_id "claude" updates kms_ok gpt_state Hnot).
Defined.

(** ** setActive *)

Lemma find_by_id_some (id : value) (ms : list JsObject) (m : JsObject) :
  find_by_id id ms = Some m -> m ∈ ms /\ prop m "id" = id.
Proof.
  unfold find_by_id. intros Hfind. apply find_some in Hfind as [Hin Heq].
  split; [apply list_elem_of_In, Hin |].
  unfold strict_eq in Heq. apply bool_decide_eq_true_1 in Heq. exact Heq.
Qed.

Lemma without_id_spec (id : value) (ms : list JsObject) (m : JsObject) :
  m ∈ without_id id ms <-> m ∈ ms /\ prop m "id" <> id.
Proof.
  unfold without_id. rewrite !list_elem_of_In, filter_In.
  unfold strict_eq. rewrite negb_true_iff, bool_decide_eq_false. reflexivity.
Qed.

(** On entries of the declared types the test of the source is the rule of
    the specification. *)
Lemma discards_returns_to_default (ms : list JsObject) (idn idp : value) :
  Forall (fun m => typed_entry m = true) ms ->
  discards (find_by_id idn ms) (find_by_id idp ms)
  = returns_to_default (find_by_id idn ms) (find_by_id idp ms).
Proof.
  intros Htyped. unfold discards, returns_to_default.
  destruct (find_by_id idp ms) as [previous|] eqn:Hp.
  - apply find_by_id_some in Hp as [Hin _].
    rewrite Forall_forall in Htyped. specialize (Htyped previous Hin).
    unfold typed_entry in Htyped. apply andb_true_iff in Htyped as [Hc Hv].
    destruct (find_by_id idn ms) as [new|]; simpl.
    + unfold strict_eq. f_equal; [f_equal |].
      * destruct (prop previous "isCustom") as [|s|[]]; try discriminate Hc; reflexivity.
      * destruct (prop previous "provider") as [|s|b]; try discriminate Hv; reflexivity.
    + reflexivity.
  - simpl. rewrite andb_false_r. destruct (find_by_id idn ms); reflexivity.
Qed.

(** C4. On a store whose entries have the declared types: when the entry
    matching the requested id has provider ["default"], the entry matching
    the current [activeId] has [isCustom = true] and that entry's provider
    is set, [setActive(id)] sends exactly one request, the deletion of the
    key of the previous entry's provider, and once it is fulfilled the
    previous entry is gone from [models] and [activeId] is [id] (a rejection
    leaves the state as it was); in every other case [setActive(id)] sends
    no request and changes nothing but [activeId], which becomes [id]. *)
Theorem setActive_transition (id : string) (svc : Service) (st : ModelState) :
  Forall (fun m => typed_entry m = true) (models st) ->
  let previousModel := find_by_id (activeId st) (models st) in
  let newModel := find_by_id (VStr id) (models st) in
  let run := setActive id svc st in
  if returns_to_default newModel previousModel
  then exists previous,
         previousModel = Some previous
         /\ requests run = [DeleteAPIKey (prop previous "provider")]
         /\ match svc (DeleteAPIKey (prop previous "provider")) with
            | None =>
                settled run = Fulfilled tt
                /\ store_after run
                   = {| models := without_id (prop previous "id") (models st);
                        activeId := VStr id |}
                /\ previous ∉ models (store_after run)
            | Some reason =>
                settled run = Rejected (CredentialError reason) /\ store_after run = st
            end
  else requests run = [] /\ settled run = Fulfilled tt
       /\ store_after run = {| models := models st; activeId := VStr id |}.
Proof.
  intros Htyped. cbv zeta.
  rewrite <- (discards_returns_to_default _ _ _ Htyped).
  rewrite setActive_run. unfold request_then_commit, setActive_request, setActive_commit.
  set (previousModel := find_by_id (activeId st) (models st)).
  set (newModel := find_by_id (VStr id) (models st)).
  destruct (discards newModel previousModel) eqn:Hd.
  - destruct (discards_previous _ _ Hd) as [previous Hp].
    exists previous. split; [exact Hp |]. rewrite Hp. simpl.
    destruct (svc _); simpl.
    + repeat split; reflexivity.
    + repeat split; try reflexivity.
      rewrite without_id_spec. intros [_ Hne]. contradiction Hne. reflexivity.
  - simpl. repeat split; reflexivity.
Qed.

Lemma setActive_transition_witness :
  Forall (fun m => typed_entry m = true) (models gpt_state)
  /\ requests (setActive "default" kms_ok gpt_state) = [DeleteAPIKey (VStr "openai")]
  /\ settled (setActive "default" kms_ok gpt_state) = Fulfilled tt
  /\ store_after (setActive "default" kms_ok gpt_state) = initial_state.
Proof.
  assert (Htyped : Forall (fun m => typed_entry m = true) (models gpt_state)).
  { repeat constructor. }
  split; [exact Htyped |].
  pose proof (setActive_transition "default" kms_ok gpt_state Htyped) as Hrule.
  change (returns_to_default _ _) with true in Hrule.
  destruct Hrule as (previous & Hp & Hreq & Hok & Hst & _).
  assert (Hprev : previous = gpt_stored).
  { change (Some gpt_stored = Some previous) in Hp. congruence. }
  subst previous. split; [exact Hreq | split; [exact Hok |]].
  rewrite Hst. vm_compute. reflexivity.
Defined.

(** *** Selecting the model that is already active *)

Lemma scratch_state_reachable : reachable scratch_state.
Proof. exact (reachable_step _ (AddModel scratch_profile) kms_ok reachable_initial). Qed.

(** C6, as stated, fails: in a reachable state whose active entry was added
    at run time with provider ["default"], [setActive] of the active id
    sends a deletion request and removes the entry. *)
Lemma setActive_same_id_can_discard :
  reachable scratch_state
  /\ activeId scratch_state = VStr "scratch"
  /\ requests (setActive "scratch" kms_ok scratch_state) = [DeleteAPIKey (VStr "default")]
  /\ requests (setActive "scratch" kms_ok scratch_state) <> []
  /\ models (store_after (setActive "scratch" kms_ok scratch_state)) = DEFAULT_MODELS
  /\ models (store_after (setActive "scratch" kms_ok scratch_state)) <> models scratch_state.
Proof.
  split; [exact scratch_state_reachable |].
  split; [reflexivity |].
  split; [vm_compute; reflexivity |].
  split; [vm_compute; discriminate |].
  split; [vm_compute; reflexivity |].
  intros Heq. apply (f_equal (@length JsObject)) in Heq. vm_compute in Heq. discriminate Heq.
Qed.

(** C6, amended. When [id] is the current [activeId], [setActive(id)]
    discards exactly when the entry matching it has provider ["default"]
    and a truthy [isCustom]: it then requests the deletion of the key of
    ["default"] and, once that is fulfilled, removes the entries with that
    id; in every other case it sends no request, removes no entry and
    leaves the state as it is. *)
Theorem setActive_same_id (id : string) (svc : Service) (st : ModelState) :
  activeId st = VStr id ->
  let current := find_by_id (VStr id) (models st) in
  let run := setActive id svc st in
  if strict_eq (opt_prop current "provider") (VStr "default")
     && truthy (opt_prop current "isCustom")
  then requests run = [DeleteAPIKey (VStr "default")]
       /\ (svc (DeleteAPIKey (VStr "default")) = None ->
           settled run = Fulfilled tt
           /\ store_after run
              = {| models := without_id (VStr id) (models st); activeId := VStr id |})
  else requests run = [] /\ settled run = Fulfilled tt /\ store_after run = st.
Proof.
  intros Hactive. cbv zeta.
  rewrite setActive_run. unfold request_then_commit, setActive_request, setActive_commit.
  rewrite Hactive. unfold discards.
  destruct (find_by_id (VStr id) (models st)) as [current|] eqn:Hcur; simpl.
  - apply find_by_id_some in Hcur as [_ Hid].
    unfold strict_eq. case_bool_decide as Hprov; simpl.
    + rewrite Hprov. simpl. rewrite andb_true_r.
      destruct (truthy (prop current "isCustom")); simpl.
      * rewrite Hid. destruct (svc _); simpl; [split; [reflexivity | discriminate] |].
        split; [reflexivity |]. intros _. split; reflexivity.
      * rewrite <- Hactive. destruct st; repeat split; reflexivity.
    + rewrite <- Hactive. destruct st; repeat split; reflexivity.
  - rewrite <- Hactive. destruct st; repeat split; reflexivity.
Qed.

Lemma setActive_same_id_witness :
  activeId gpt_state = VStr "gpt"
  /\ requests (setActive "gpt" kms_ok gpt_state) = []
  /\ settled (setActive "gpt" kms_ok gpt_state) = Fulfilled tt
  /\ store_after (setActive "gpt" kms_ok gpt_state) = gpt_state.
Proof.
  split; [reflexivity |].
  exact (setActive_same_id "gpt" kms_ok gpt_state eq_refl).
Defined.

(** ** The ids of the store across an operation *)

Lemma store_after_perform (op : Op) (svc : Service) (st : ModelState) :
  store_after (perform op svc st) = st
  \/ store_after (perform op svc st) = merge st (commit_of op st).
Proof.
  rewrite perform_run. unfold request_then_commit.
  destruct (request_of op st) as [c|]; [destruct (svc c) |]; simpl; auto.
Qed.

Lemma elem_of_ids (st : ModelState) (v : value) :
  v ∈ ids st <-> exists m, m ∈ models st /\ prop m "id" = v.
Proof.
  unfold ids. rewrite list_elem_of_In, in_map_iff.
  split; intros (m & H1 & H2); exists m; rewrite ?list_elem_of_In in *; auto.
Qed.

Lemma elem_of_ids_without (id v : value) (ms : list JsObject) :
  v ∈ List.map (fun m => prop m "id") (without_id id ms)
  <-> v ∈ List.map (fun m => prop m "id") ms /\ v <> id.
Proof.
  rewrite !list_elem_of_In, !in_map_iff. split.
  - intros (m & Hid & Hin). apply list_elem_of_In, without_id_spec in Hin as [Hin Hne].
    split; [exists m; split; [exact Hid | apply list_elem_of_In, Hin] | congruence].
  - intros [(m & Hid & Hin) Hne]. exists m. split; [exact Hid |].
    apply list_elem_of_In, without_id_spec. split; [apply list_elem_of_In, Hin | congruence].
Qed.

Lemma NoDup_ids_without (id : value) (ms : list JsObject) :
  NoDup (List.map (fun m => prop m "id") ms) ->
  NoDup (List.map (fun m => prop m "id") (without_id id ms)).
Proof.
  induction ms as [|m ms IH]; simpl; [intros _; constructor |].
  rewrite NoDup_cons. intros [Hnot Hnd].
  destruct (negb (strict_eq (prop m "id") id)); simpl; [| apply IH, Hnd].
  rewrite NoDup_cons. split; [| apply IH, Hnd].
  intros Hin. apply Hnot. apply elem_of_ids_without in Hin as [Hin _]. exact Hin.
Qed.

(** The entry [addModel] stores has the id of its input. *)
Lemma stored_entry_id (model : JsObject) :
  prop (<["isCustom" := VBool true]> (delete "apiKey" model)) "id" = prop model "id".
Proof.
  unfold prop. rewrite lookup_insert_ne by discriminate.
  rewrite lookup_delete_ne by discriminate. reflexivity.
Qed.

Lemma ids_addModel (st : ModelState) (model : JsObject) :
  ids (merge st (addModel_commit st model)) = ids st ++ [prop model "id"].
Proof.
  unfold ids, merge, addModel_commit; simpl.
  rewrite map_app. simpl. rewrite stored_entry_id. reflexivity.
Qed.

Lemma ids_updateModel (st : ModelState) (id : string) (updates : JsObject) :
  keeps_id id updates ->
  ids (merge st (updateModel_commit st id updates)) = ids st.
Proof.
  intros Hkeep. unfold ids, merge, updateModel_commit; simpl.
  rewrite map_map. apply map_ext. intros m.
  unfold strict_eq. case_bool_decide as Hid; [| reflexivity].
  unfold spread, prop. rewrite lookup_union.
  destruct Hkeep as [-> | ->].
  - rewrite (left_id None _). reflexivity.
  - unfold prop in Hid. rewrite Hid. destruct (m !! "id"); reflexivity.
Qed.

(** ** Uniqueness of ids *)

(** C9, as stated, fails: nothing in [addModel] looks at the ids already
    stored, so adding a profile whose id is taken leaves two entries with
    that id. *)
Lemma addModel_duplicate_id :
  reachable initial_state
  /\ unique_ids initial_state
  /\ ids (store_after (addModel duplicate_profile kms_ok initial_state))
     = [VStr "default"; VStr "default"]
  /\ ~ unique_ids (store_after (addModel duplicate_profile kms_ok initial_state)).
Proof.
  split; [exact reachable_initial |].
  split; [unfold unique_ids; vm_compute; repeat constructor; apply not_elem_of_nil |].
  assert (Hids : ids (store_after (addModel duplicate_profile kms_ok initial_state))
                 = [VStr "default"; VStr "default"]) by (vm_compute; reflexivity).
  split; [exact Hids |].
  unfold unique_ids. rewrite Hids. rewrite NoDup_cons. intros [Hnot _].
  apply Hnot. left.
Qed.

Lemma unique_ids_commit (op : Op) (st : ModelState) :
  unique_ids st -> keeps_ids_unique op st -> unique_ids (merge st (commit_of op st)).
Proof.
  unfold unique_ids. intros Hnd Hkeep. destruct op as [model|id updates|id|id]; simpl in *.
  - rewrite ids_addModel. apply NoDup_app. split; [exact Hnd |]. split.
    + intros v Hv Hin. apply list_elem_of_singleton in Hin. subst v. contradiction.
    + apply NoDup_singleton.
  - rewrite ids_updateModel by exact Hkeep. exact Hnd.
  - unfold setActive_commit. destruct (discards _ _); simpl; [| exact Hnd].
    apply NoDup_ids_without, Hnd.
  - apply NoDup_ids_without, Hnd.
Qed.

(** C9, amended. The ids of [models] stay unique across [setActive] and
    [removeModel], across [addModel] of a profile whose id is not yet in
    [models], and across [updateModel] with updates that have no [id] key
    or repeat the id they are addressed to. *)
Theorem unique_ids_preserved (op : Op) (svc : Service) (st : ModelState) :
  unique_ids st ->
  keeps_ids_unique op st ->
  unique_ids (store_after (perform op svc st)).
Proof.
  intros Hnd Hkeep.
  destruct (store_after_perform op svc st) as [-> | ->];
    [exact Hnd | apply unique_ids_commit; assumption].
Qed.

Lemma unique_ids_preserved_witness :
  unique_ids initial_state
  /\ keeps_ids_unique (AddModel gpt_profile) initial_state
  /\ unique_ids (store_after (perform (AddModel gpt_profile) kms_ok initial_state)).
Proof.
  assert (Hinit : unique_ids initial_state).
  { unfold unique_ids. vm_compute. repeat constructor. apply not_elem_of_nil. }
  assert (Hfresh : keeps_ids_unique (AddModel gpt_profile) initial_state).
  { simpl. vm_compute. intros Hin. apply list_elem_of_singleton in Hin. discriminate Hin. }
  split; [exact Hinit | split; [exact Hfresh |]].
  exact (unique_ids_preserved (AddModel gpt_profile) kms_ok initial_state Hinit Hfresh).
Defined.

(** ** The active id names a stored model *)

(** C5, as stated, fails: [setActive] writes whatever id it is given, also
    one that names no entry of [models]. *)
Lemma setActive_unknown_id_dangles :
  reachable initial_state
  /\ active_valid initial_state
  /\ store_after (setActive "missing" kms_ok initial_state)
     = {| models := DEFAULT_MODELS; activeId := VStr "missing" |}
  /\ ~ active_valid (store_after (setActive "missing" kms_ok initial_state)).
Proof.
  split; [exact reachable_initial |].
  split; [left; vm_compute; left |].
  assert (Hst : store_after (setActive "missing" kms_ok initial_state)
                = {| models := DEFAULT_MODELS; activeId := VStr "missing" |})
    by (vm_compute; reflexivity).
  split; [exact Hst |].
  rewrite Hst. intros [Hin | [Hnil _]].
  - apply elem_of_ids in Hin as (m & Hm & Hid). simpl in Hm.
    apply list_elem_of_singleton in Hm. subst m. vm_compute in Hid. discriminate Hid.
  - discriminate Hnil.
Qed.

Lemma active_valid_commit (op : Op) (st : ModelState) :
  active_valid st -> keeps_active_valid op st -> active_valid (merge st (commit_of op st)).
Proof.
  unfold active_valid. intros Hvalid Hkeep.
  destruct op as [model|id updates|id|id]; simpl in Hkeep.
  - left. simpl commit_of. rewrite ids_addModel. simpl.
    apply elem_of_app. right. left.
  - simpl commit_of. rewrite ids_updateModel by exact Hkeep.
    destruct Hvalid as [Hin | [Hnil Hact]]; [left; exact Hin | right].
    simpl. rewrite Hnil. split; [reflexivity | exact Hact].
  - destruct Hkeep as [Hin Hsame]. left. simpl commit_of. unfold setActive_commit.
    destruct (discards _ _) eqn:Hd; simpl; [| exact Hin].
    destruct (discards_previous _ _ Hd) as [previous Hp]. rewrite Hp. simpl.
    apply find_by_id_some in Hp as [_ Hpid].
    unfold ids. simpl. apply elem_of_ids_without. split; [exact Hin |].
    rewrite Hpid. intros Heq. symmetry in Heq. specialize (Hsame Heq). congruence.
  - simpl commit_of. unfold removeModel_commit, merge, ids. simpl.
    unfold strict_eq. case_bool_decide as Hact.
    + destruct Hkeep as [Hne | Hfirst]; [contradiction |].
      destruct (models st) as [|first rest] eqn:Hms; simpl in *.
      * right. split; reflexivity.
      * left. destruct Hfirst as (s & Hs & Hne). rewrite Hs.
        unfold strict_eq. rewrite bool_decide_eq_false_2 by congruence. simpl.
        rewrite Hs. replace (js_or (VStr s) (VStr "")) with (VStr s); [left |].
        unfold js_or. simpl. destruct (String.eqb_spec s ""); simpl; congruence.
    + destruct Hvalid as [Hin | [Hnil Hempty]].
      * left. apply elem_of_ids_without. split; [exact Hin | exact Hact].
      * right. rewrite Hnil. simpl. split; [reflexivity | exact Hempty].
Qed.

(** C5, amended. [activeId] stays the id of some entry of [models], or [""]
    with [models] empty, across every [addModel]; across [updateModel] with
    updates that have no [id] key or repeat the id they are addressed to;
    across [setActive(id)] when [id] is the id of an entry of [models] that
    the call does not itself discard; and across [removeModel(id)] when
    [id] is not the active id or the first entry of [models], if any, has
    a string id other than [id]. *)
Theorem active_valid_preserved (op : Op) (svc : Service) (st : ModelState) :
  active_valid st ->
  keeps_active_valid op st ->
  active_valid (store_after (perform op svc st)).
Proof.
  intros Hvalid Hkeep.
  destruct (store_after_perform op svc st) as [-> | ->];
    [exact Hvalid | apply active_valid_commit; assumption].
Qed.

Lemma active_valid_preserved_witness :
  active_valid gpt_state
  /\ keeps_active_valid (RemoveModel "gpt") gpt_state
  /\ active_valid (store_after (perform (RemoveModel "gpt") kms_ok gpt_state)).
Proof.
  assert (Hvalid : active_valid gpt_state).
  { left. vm_compute. right. left. }
  assert (Hkeep : keeps_active_valid (RemoveModel "gpt") gpt_state).
  { right. simpl. exists "default". split; [reflexivity | discriminate]. }
  split; [exact Hvalid | split; [exact Hkeep |]].
  exact (active_valid_preserved (RemoveModel "gpt") kms_ok gpt_state Hvalid Hkeep).
Defined.

(** ** No key in the store *)

(** [addModel], [setActive] and [removeModel] never bring an [apiKey]
    property into [models]: the first strips it from its input, the other
    two only drop entries. *)
Lemma secret_free_kept (op : Op) (svc : Service) (st : ModelState) :
  (forall id updates, op <> UpdateModel id updates) ->
  Forall secret_free (models st) ->
  Forall secret_free (models (store_after (perform op svc st))).
Proof.
  intros Hop Hfree.
  destruct (store_after_perform op svc st) as [-> | ->]; [exact Hfree |].
  destruct op as [model|id updates|id|id]; simpl.
  - apply Forall_app. split; [exact Hfree |]. constructor; [| constructor].
    unfold secret_free. rewrite lookup_insert_ne by discriminate. apply lookup_delete_eq.
  - contradiction (Hop id updates). reflexivity.
  - unfold setActive_commit. destruct (discards _ _); simpl; [| exact Hfree].
    rewrite Forall_forall in *. intros m Hin. apply without_id_spec in Hin as [Hin _]. auto.
  - rewrite Forall_forall in *. intros m Hin. apply without_id_spec in Hin as [Hin _]. auto.
Qed.

(** C1. [updateModel] merges its [updates] object as it is: from a
    reachable state without any key, an update that carries [apiKey]
    leads to a reachable state whose matching entry holds the key, although
    the key was also sent to the key management service. *)
Theorem updateModel_keeps_apiKey_in_store :
  let run := updateModel "gpt" new_key_updates kms_ok gpt_state in
  reachable gpt_state
  /\ Forall secret_free (models gpt_state)
  /\ reachable (store_after run)
  /\ requests run = [StoreAPIKey (VStr "openai") (VStr "sk-456")]
  /\ models (store_after run) = DEFAULT_MODELS ++ [ <["apiKey" := VStr "sk-456"]> gpt_stored ]
  /\ exists m, m ∈ models (store_after run)
               /\ prop m "id" = VStr "gpt"
               /\ m !! "apiKey" = Some (VStr "sk-456").
Proof.
  cbv zeta.
  split; [exact gpt_state_reachable |].
  split; [repeat constructor |].
  split; [exact (reachable_step _ (UpdateModel "gpt" new_key_updates) kms_ok gpt_state_reachable) |].
  split; [vm_compute; reflexivity |].
  assert (Hms : models (store_after (updateModel "gpt" new_key_updates kms_ok gpt_state))
                = DEFAULT_MODELS ++ [ <["apiKey" := VStr "sk-456"]> gpt_stored ])
    by (vm_compute; reflexivity).
  split; [exact Hms |].
  exists (<["apiKey" := VStr "sk-456"]> gpt_stored). rewrite Hms.
  split; [apply elem_of_app; right; left |].
  split; [vm_compute; reflexivity | apply lookup_insert_eq].
Qed.

(** ** removeModel *)

(** [state_AB] is reached by adding [A] and [B], removing the built-in
    profile and selecting [A]. *)
Lemma state_AB_reachable : reachable state_AB.
Proof.
  pose proof (reachable_step _ (AddModel (delete "isCustom" profile_A)) kms_ok
                reachable_initial) as H1.
  pose proof (reachable_step _ (AddModel (delete "isCustom" profile_B)) kms_ok H1) as H2.
  pose proof (reachable_step _ (RemoveModel "default") kms_ok H2) as H3.
  pose proof (reachable_step _ (SetActive "A") kms_ok H3) as H4.
  replace state_AB with
    (store_after (perform (SetActive "A") kms_ok
      (store_after (perform (RemoveModel "default") kms_ok
        (store_after (perform (AddModel (delete "isCustom" profile_B)) kms_ok
          (store_after (perform (AddModel (delete "isCustom" profile_A)) kms_ok
            initial_state)))))))); [exact H4 |].
  vm_compute. reflexivity.
Qed.

(** When the removed model is the active one and stands first in [models],
    the fallback reads the first entry of the list from before the removal,
    which is the removed model itself. *)
Lemma removeModel_first_active (id : string) (svc : Service) (st : ModelState) :
  activeId st = VStr id ->
  opt_prop (head (models st)) "id" = VStr id ->
  id <> "" ->
  settled (removeModel id svc st) = Fulfilled tt ->
  activeId (store_after (removeModel id svc st)) = VStr id
  /\ VStr id ∉ ids (store_after (removeModel id svc st)).
Proof.
  intros Hact Hfirst Hne. rewrite removeModel_run. unfold request_then_commit.
  assert (Hcommit : activeId (merge st (removeModel_commit st id)) = VStr id
                    /\ VStr id ∉ ids (merge st (removeModel_commit st id))).
  { unfold merge, removeModel_commit, ids; simpl. split.
    - rewrite Hact, Hfirst. unfold strict_eq. rewrite bool_decide_eq_true_2 by reflexivity.
      unfold js_or. simpl. destruct (String.eqb_spec id ""); [contradiction | reflexivity].
    - rewrite elem_of_ids_without. intros [_ Hbad]. contradiction Hbad. reflexivity. }
  destruct (removeModel_request st id) as [c|]; [destruct (svc c) |]; simpl;
    try discriminate; intros _; exact Hcommit.
Qed.

(** C3. With [models = [A, B]] and [A] active, a reachable state,
    [removeModel("A")] leaves [models = [B]] and [activeId = "A"]: the
    active id is not the id of [B], the first entry that remains, and it
    names no entry at all. *)
Theorem removeModel_fallback_is_removed_id :
  let run := removeModel "A" kms_ok state_AB in
  reachable state_AB
  /\ settled run = Fulfilled tt
  /\ requests run = [DeleteAPIKey (VStr "openai")]
  /\ models (store_after run) = [profile_B]
  /\ activeId (store_after run) = VStr "A"
  /\ activeId (store_after run) <> prop profile_B "id"
  /\ ~ active_valid (store_after run).
Proof.
  cbv zeta.
  assert (Hst : store_after (removeModel "A" kms_ok state_AB)
                = {| models := [profile_B]; activeId := VStr "A" |})
    by (vm_compute; reflexivity).
  split; [exact state_AB_reachable |].
  split; [vm_compute; reflexivity |].
  split; [vm_compute; reflexivity |].
  rewrite Hst. simpl.
  split; [reflexivity |]. split; [reflexivity |].
  split; [vm_compute; discriminate |].
  intros [Hin | [Hnil _]].
  - apply elem_of_ids in Hin as (m & Hm & Hid). simpl in Hm.
    apply list_elem_of_singleton in Hm. subst m. vm_compute in Hid. discriminate Hid.
  - discriminate Hnil.
Qed.


(** * Further properties of the operations *)

(** ** What is sent to the key management service *)

(** X1. [addModel(model)] sends one request, [storeAPIKey(model.provider,
    model.apiKey)], when both [model.apiKey] and [model.provider] are
    truthy, and no request otherwise; the call fulfils unless that request
    is rejected. A key given without a provider is therefore sent nowhere. *)
Theorem addModel_credential_request (model : JsObject) (svc : Service) (st : ModelState) :
  requests (addModel model svc st)
  = (if truthy (prop model "apiKey") && truthy (prop model "provider")
     then [StoreAPIKey (prop model "provider") (prop model "apiKey")]
     else [])
  /\ settled (addModel model svc st)
     = (if truthy (prop model "apiKey") && truthy (prop model "provider")
        then match svc (StoreAPIKey (prop model "provider") (prop model "apiKey")) with
             | None => Fulfilled tt
             | Some reason => Rejected (CredentialError reason)
             end
        else Fulfilled tt).
Proof.
  rewrite addModel_run. unfold request_then_commit, addModel_request.
  destruct (truthy (prop model "apiKey") && truthy (prop model "provider")).
  - destruct (svc _); split; reflexivity.
  - split; reflexivity.
Qed.

(** X2. [removeModel(id)] sends one request, the deletion of the key of the
    provider of the first entry whose id is [id], when that entry exists
    and its provider is truthy, and no request otherwise. *)
Theorem removeModel_credential_request (id : string) (svc : Service) (st : ModelState) :
  requests (removeModel id svc st)
  = match find_by_id (VStr id) (models st) with
    | Some m =>
        if truthy (prop m "provider") then [DeleteAPIKey (prop m "provider")] else []
    | None => []
    end.
Proof.
  rewrite removeModel_run. unfold request_then_commit, removeModel_request.
  destruct (find_by_id (VStr id) (models st)) as [m|]; simpl; [| reflexivity].
  destruct (truthy (prop m "provider")); [| reflexivity].
  destruct (svc _); reflexivity.
Qed.

(** X3. Whatever the operation, the state and the service: at most one
    request is sent; the call never fails with a [TypeError], also not in
    [setActive], which reads [previousModel.provider] without [?.]; and the
    call fulfils exactly when the service fulfils what was sent. *)
Theorem operation_settles (op : Op) (svc : Service) (st : ModelState) :
  length (requests (perform op svc st)) <= 1
  /\ settled (perform op svc st) <> Rejected TypeError
  /\ (settled (perform op svc st) = Fulfilled tt
      <-> Forall (fun c => svc c = None) (requests (perform op svc st))).
Proof.
  rewrite perform_run. unfold request_then_commit.
  destruct (request_of op st) as [c|]; simpl.
  - destruct (svc c) eqn:Hc; simpl.
    + split; [lia |]. split; [discriminate |].
      split; [discriminate |]. intros Hall. apply Forall_cons in Hall as [Hnone _]. congruence.
    + split; [lia |]. split; [discriminate |].
      split; [intros _; repeat constructor; exact Hc | reflexivity].
  - split; [lia |]. split; [discriminate |]. split; [constructor | reflexivity].
Qed.

Lemma find_by_id_truthy_provider (id : value) (ms : list JsObject) :
  truthy (opt_prop (find_by_id id ms) "provider") = true ->
  exists m, m ∈ ms /\ prop m "provider" = opt_prop (find_by_id id ms) "provider".
Proof.
  destruct (find_by_id id ms) as [m|] eqn:Hfind; simpl; [| discriminate].
  intros _. exists m. apply find_by_id_some in Hfind as [Hin _]. split; [exact Hin | reflexivity].
Qed.

(** X4. No operation ever addresses the service with a provider that is
    [undefined] or empty, [addModel] never deletes a key, [setActive] and
    [removeModel] never store one and only delete the key of the provider
    of an entry of [models], and a key that is stored is truthy. *)
Theorem request_well_formed (op : Op) (svc : Service) (st : ModelState) (c : KmsCall) :
  c ∈ requests (perform op svc st) ->
  truthy (provider_name_of c) = true
  /\ request_allowed op c
  /\ match op with
     | SetActive _ | RemoveModel _ =>
         exists m, m ∈ models st /\ prop m "provider" = provider_name_of c
     | _ => True
     end.
Proof.
  rewrite perform_run.
  assert (Hreq : c ∈ requests (request_then_commit (request_of op st) (commit_of op st) svc st)
                 -> request_of op st = Some c).
  { unfold request_then_commit. destruct (request_of op st) as [k|]; [destruct (svc k) |]; simpl;
      intros Hin; try (apply list_elem_of_singleton in Hin; congruence).
    apply not_elem_of_nil in Hin. contradiction. }
  intros Hin. specialize (Hreq Hin). clear Hin.
  destruct op as [model|id updates|id|id]; simpl in Hreq.
  - unfold addModel_request in Hreq.
    destruct (truthy (prop model "apiKey")) eqn:Hk; [| discriminate].
    destruct (truthy (prop model "provider")) eqn:Hp; [| discriminate].
    injection Hreq as <-. simpl. auto.
  - unfold updateModel_request in Hreq.
    destruct (has_key "apiKey" updates); [| discriminate].
    destruct (truthy (prop updates "provider")) eqn:Hp; [| discriminate].
    destruct (truthy (prop updates "apiKey")) eqn:Hk; injection Hreq as <-; simpl; auto.
  - unfold setActive_request, discards in Hreq.
    destruct (strict_eq _ _); [| discriminate].
    destruct (truthy (opt_prop _ "isCustom")); [| discriminate].
    destruct (truthy (opt_prop _ "provider")) eqn:Hp; [| discriminate].
    injection Hreq as <-. simpl.
    split; [exact Hp | split; [exact I |]]. apply find_by_id_truthy_provider, Hp.
  - unfold removeModel_request in Hreq.
    destruct (truthy (opt_prop _ "provider")) eqn:Hp; [| discriminate].
    injection Hreq as <-. simpl.
    split; [exact Hp | split; [exact I |]]. apply find_by_id_truthy_provider, Hp.
Qed.

Lemma request_well_formed_witness :
  let c := DeleteAPIKey (VStr "openai") in
  c ∈ requests (perform (SetActive "default") kms_ok gpt_state)
  /\ truthy (provider_name_of c) = true
  /\ request_allowed (SetActive "default") c
  /\ exists m, m ∈ models gpt_state /\ prop m "provider" = provider_name_of c.
Proof.
  intros c.
  assert (Hin : c ∈ requests (perform (SetActive "default") kms_ok gpt_state)).
  { vm_compute. constructor. }
  split; [exact Hin |].
  exact (request_well_formed (SetActive "default") kms_ok gpt_state c Hin).
Defined.

(** ** What a fulfilled call commits *)

Lemma perform_fulfilled (op : Op) (svc : Service) (st : ModelState) :
  settled (perform op svc st) = Fulfilled tt ->
  store_after (perform op svc st) = merge st (commit_of op st).
Proof.
  rewrite perform_run. unfold request_then_commit.
  destruct (request_of op st) as [c|]; [destruct (svc c) |]; simpl;
    try discriminate; reflexivity.
Qed.

Lemma removeModel_fulfilled (id : string) (svc : Service) (st : ModelState) :
  settled (removeModel id svc st) = Fulfilled tt ->
  store_after (removeModel id svc st) = merge st (removeModel_commit st id).
Proof. exact (perform_fulfilled (RemoveModel id) svc st). Qed.

Lemma updateModel_fulfilled (id : string) (updates : JsObject) (svc : Service) (st : ModelState) :
  settled (updateModel id updates svc st) = Fulfilled tt ->
  store_after (updateModel id updates svc st) = merge st (updateModel_commit st id updates).
Proof. exact (perform_fulfilled (UpdateModel id updates) svc st). Qed.

Lemma addModel_fulfilled (model : JsObject) (svc : Service) (st : ModelState) :
  settled (addModel model svc st) = Fulfilled tt ->
  store_after (addModel model svc st) = merge st (addModel_commit st model).
Proof. exact (perform_fulfilled (AddModel model) svc st). Qed.

Lemma setActive_fulfilled (id : string) (svc : Service) (st : ModelState) :
  settled (setActive id svc st) = Fulfilled tt ->
  store_after (setActive id svc st) = merge st (setActive_commit st id).
Proof. exact (perform_fulfilled (SetActive id) svc st). Qed.

Lemma find_by_id_unknown (id : value) (ms : list JsObject) :
  id ∉ List.map (fun m => prop m "id") ms -> find_by_id id ms = None.
Proof.
  unfold find_by_id. induction ms as [|m ms IH]; simpl; [reflexivity |].
  intros Hnot. apply not_elem_of_cons in Hnot as [Hne Hrest].
  unfold strict_eq at 1. rewrite bool_decide_eq_false_2 by congruence. apply IH, Hrest.
Qed.

Lemma without_id_unknown (id : value) (ms : list JsObject) :
  id ∉ List.map (fun m => prop m "id") ms -> without_id id ms = ms.
Proof.
  unfold without_id. induction ms as [|m ms IH]; simpl; [reflexivity |].
  intros Hnot. apply not_elem_of_cons in Hnot as [Hne Hrest].
  unfold strict_eq at 1. rewrite bool_decide_eq_false_2 by congruence. simpl.
  f_equal. apply IH, Hrest.
Qed.

Lemma without_id_sublist (id : value) (ms : list JsObject) :
  sublist (without_id id ms) ms.
Proof.
  unfold without_id. induction ms as [|m ms IH]; simpl; [constructor |].
  destruct (negb (strict_eq (prop m "id") id)); [apply sublist_skip | apply sublist_cons];
    exact IH.
Qed.



(** X6. When the removed model is the active one and the first entry of
    [models] has another id, a fulfilled [removeModel(id)] makes that first
    entry, which is still the first one, the active model. *)
Theorem removeModel_fallback_to_first
    (id s : string) (first : JsObject) (svc : Service) (st : ModelState) :
  activeId st = VStr id ->
  head (models st) = Some first ->
  prop first "id" = VStr s ->
  s <> id ->
  settled (removeModel id svc st) = Fulfilled tt ->
  head (models (store_after (removeModel id svc st))) = Some first
  /\ activeId (store_after (removeModel id svc st)) = prop first "id".
Proof.
  intros Hact Hhead Hs Hne Hok.
  rewrite (removeModel_fulfilled id svc st Hok). simpl.
  destruct (models st) as [|m rest]; [discriminate Hhead |].
  injection Hhead as ->. simpl.
  unfold strict_eq. rewrite Hs, Hact.
  rewrite (bool_decide_eq_false_2 (VStr s = VStr id)) by congruence.
  rewrite bool_decide_eq_true_2 by reflexivity. simpl.
  split; [reflexivity |].
  unfold js_or. simpl. destruct (String.eqb_spec s ""); simpl; congruence.
Qed.

Lemma removeModel_fallback_to_first_witness :
  exists first,
    activeId gpt_state = VStr "gpt"
    /\ head (models gpt_state) = Some first
    /\ prop first "id" = VStr "default"
    /\ settled (removeModel "gpt" kms_ok gpt_state) = Fulfilled tt
    /\ head (models (store_after (removeModel "gpt" kms_ok gpt_state))) = Some first
    /\ activeId (store_after (removeModel "gpt" kms_ok gpt_state)) = prop first "id".
Proof.
  eexists. split; [reflexivity |]. split; [reflexivity |].
  split; [reflexivity |]. split; [reflexivity |].
  apply (removeModel_fallback_to_first "gpt" "default" _ kms_ok gpt_state);
    [reflexivity | reflexivity | reflexivity | discriminate | reflexivity].
Defined.

Lemma removeModel_unknown_run (id : string) (svc : Service) (st : ModelState) :
  VStr id ∉ ids st ->
  removeModel id svc st
  = mkRun {| models := models st;
             activeId := if strict_eq (activeId st) (VStr id)
                         then js_or (opt_prop (head (models st)) "id") (VStr "")
                         else activeId st |}
          [] (Fulfilled tt).
Proof.
  intros Hnot. rewrite removeModel_run.
  unfold request_then_commit, removeModel_request.
  rewrite (find_by_id_unknown _ _ Hnot). unfold merge, removeModel_commit. simpl.
  rewrite (without_id_unknown _ _ Hnot). reflexivity.
Qed.

(** X7. [removeModel(id)] for an id that no entry carries sends no request,
    fulfils and leaves [models] as it is; [activeId] is left alone too,
    unless it is that very id, in which case it becomes the id of the first
    entry of [models], or [""] when that id is falsy or [models] is empty. *)
Theorem removeModel_unknown_id (id : string) (svc : Service) (st : ModelState) :
  VStr id ∉ ids st ->
  requests (removeModel id svc st) = []
  /\ settled (removeModel id svc st) = Fulfilled tt
  /\ models (store_after (removeModel id svc st)) = models st
  /\ activeId (store_after (removeModel id svc st))
     = (if bool_decide (activeId st = VStr id)
        then match head (models st) with
             | Some first => if truthy (prop first "id") then prop first "id" else VStr ""
             | None => VStr ""
             end
        else activeId st).
Proof.
  intros Hnot. rewrite removeModel_run.
  unfold request_then_commit, removeModel_request.
  rewrite (find_by_id_unknown _ _ Hnot). simpl.
  rewrite (without_id_unknown _ _ Hnot).
  repeat split. unfold strict_eq. case_bool_decide; [| reflexivity].
  destruct (models st) as [|first rest]; reflexivity.
Qed.

Lemma removeModel_unknown_id_witness :
  (VStr "claude" ∉ ids gpt_state)
  /\ requests (removeModel "claude" kms_ok gpt_state) = []
  /\ settled (removeModel "claude" kms_ok gpt_state) = Fulfilled tt
  /\ models (store_after (removeModel "claude" kms_ok gpt_state)) = models gpt_state
  /\ activeId (store_after (removeModel "claude" kms_ok gpt_state)) = VStr "gpt".
Proof.
  assert (Hnot : VStr "claude" ∉ ids gpt_state).
  { vm_compute. intros Hin. repeat (apply elem_of_cons in Hin as [Heq | Hin]; [discriminate |]).
    apply not_elem_of_nil in Hin. exact Hin. }
  split; [exact Hnot |].
  exact (removeModel_unknown_id "claude" kms_ok gpt_state Hnot).
Defined.

(** ** updateModel as a merge *)

Lemma lookup_spread (m updates : JsObject) (k : string) :
  spread m updates !! k
  = match updates !! k with
    | Some v => Some v
    | None => m !! k
    end.
Proof.
  unfold spread. rewrite lookup_union.
  destruct (updates !! k), (m !! k); reflexivity.
Qed.

(** X8. A fulfilled [updateModel(id, updates)] leaves [activeId] and the
    number of entries as they were and rewrites the entries in place: an
    entry with another id is untouched, and an entry whose id is [id] takes
    every property of [updates], also those holding [undefined], and keeps
    its own value for every key [updates] does not have. All entries with
    that id are rewritten, not only the first. *)
Theorem updateModel_merges
    (id : string) (updates : JsObject) (svc : Service) (st : ModelState) :
  settled (updateModel id updates svc st) = Fulfilled tt ->
  activeId (store_after (updateModel id updates svc st)) = activeId st
  /\ length (models (store_after (updateModel id updates svc st))) = length (models st)
  /\ forall (i : nat) (m : JsObject),
       models st !! i = Some m ->
       exists m',
         models (store_after (updateModel id updates svc st)) !! i = Some m'
         /\ (prop m "id" <> VStr id -> m' = m)
         /\ (prop m "id" = VStr id ->
             forall k, m' !! k = match updates !! k with
                                 | Some v => Some v
                                 | None => m !! k
                                 end).
Proof.
  intros Hok. rewrite (updateModel_fulfilled id updates svc st Hok).
  unfold merge, updateModel_commit. simpl.
  split; [reflexivity |]. split; [apply length_map |].
  intros i m Hi.
  change (List.map ?f ?l) with (f <$> l). rewrite list_lookup_fmap, Hi. simpl.
  eexists. split; [reflexivity |].
  unfold strict_eq. case_bool_decide as Hid.
  - split; [intros Hne; contradiction | intros _ k; apply lookup_spread].
  - split; [reflexivity | intros Heq; contradiction].
Qed.

Lemma updateModel_merges_witness :
  let updates : JsObject := {[ "name" := VStr "GPT-4" ]} in
  let run := updateModel "gpt" updates kms_ok gpt_state in
  settled run = Fulfilled tt
  /\ activeId (store_after run) = activeId gpt_state
  /\ length (models (store_after run)) = length (models gpt_state)
  /\ forall (i : nat) (m : JsObject),
       models gpt_state !! i = Some m ->
       exists m',
         models (store_after run) !! i = Some m'
         /\ (prop m "id" <> VStr "gpt" -> m' = m)
         /\ (prop m "id" = VStr "gpt" ->
             forall k, m' !! k = match updates !! k with
                                 | Some v => Some v
                                 | None => m !! k
                                 end).
Proof.
  intros updates run. split; [reflexivity |].
  apply (updateModel_merges "gpt" updates kms_ok gpt_state). reflexivity.
Defined.

Lemma spread_twice (m updates : JsObject) : spread (spread m updates) updates = spread m updates.
Proof.
  apply map_eq. intros k. rewrite !lookup_spread. destruct (updates !! k); reflexivity.
Qed.

Lemma update_entry_twice (id : string) (updates : JsObject) (ms : list JsObject) :
  let f := fun m : JsObject => if strict_eq (prop m "id") (VStr id) then spread m updates else m in
  List.map f (List.map f ms) = List.map f ms.
Proof.
  intros f. rewrite map_map. apply map_ext. intros m. unfold f.
  destruct (strict_eq (prop m "id") (VStr id)) eqn:Hm.
  - destruct (strict_eq (prop (spread m updates) "id") (VStr id));
      [apply spread_twice | reflexivity].
  - rewrite Hm. reflexivity.
Qed.

(** X9. Repeating a fulfilled [updateModel(id, updates)] changes nothing
    more in the store, whether the second call is fulfilled or rejected,
    and also when [updates] gives the entry another id. *)
Theorem updateModel_idempotent
    (id : string) (updates : JsObject) (svc svc' : Service) (st : ModelState) :
  settled (updateModel id updates svc st) = Fulfilled tt ->
  store_after (updateModel id updates svc' (store_after (updateModel id updates svc st)))
  = store_after (updateModel id updates svc st).
Proof.
  intros Hok.
  destruct (store_after_perform (UpdateModel id updates) svc'
              (store_after (updateModel id updates svc st))) as [Hsame | Hagain];
    simpl in Hsame || simpl in Hagain; [exact Hsame |].
  rewrite Hagain. rewrite (updateModel_fulfilled id updates svc st Hok).
  unfold merge, updateModel_commit. simpl.
  rewrite (update_entry_twice id updates (models st)). reflexivity.
Qed.

Lemma updateModel_idempotent_witness :
  settled (updateModel "gpt" new_key_updates kms_ok gpt_state) = Fulfilled tt
  /\ store_after (updateModel "gpt" new_key_updates (kms_down "offline")
                    (store_after (updateModel "gpt" new_key_updates kms_ok gpt_state)))
     = store_after (updateModel "gpt" new_key_updates kms_ok gpt_state).
Proof.
  split; [reflexivity |].
  apply (updateModel_idempotent "gpt" new_key_updates kms_ok (kms_down "offline") gpt_state).
  reflexivity.
Defined.

(** X10. When [updates] has the [apiKey] key and no truthy [provider],
    [updateModel(id, updates)] sends nothing to the key management service
    and fulfils, and every entry whose id is [id] is stored with the
    [apiKey] property of [updates]. *)
Theorem updateModel_key_without_provider
    (id : string) (updates : JsObject) (svc : Service) (st : ModelState) :
  is_Some (updates !! "apiKey") ->
  truthy (prop updates "provider") = false ->
  requests (updateModel id updates svc st) = []
  /\ settled (updateModel id updates svc st) = Fulfilled tt
  /\ forall m, m ∈ models st -> prop m "id" = VStr id ->
       exists m', m' ∈ models (store_after (updateModel id updates svc st))
                  /\ m' !! "apiKey" = updates !! "apiKey"
                  /\ forall k, updates !! k = None -> m' !! k = m !! k.
Proof.
  intros Hkey Hprov. rewrite updateModel_run.
  unfold request_then_commit, updateModel_request. rewrite Hprov, andb_false_r. simpl.
  split; [reflexivity |]. split; [reflexivity |].
  intros m Hin Hid. exists (spread m updates). split; [| split].
  - apply list_elem_of_In, in_map_iff. exists m.
    unfold strict_eq. rewrite bool_decide_eq_true_2 by exact Hid.
    split; [reflexivity | apply list_elem_of_In, Hin].
  - rewrite lookup_spread. destruct Hkey as [v ->]. reflexivity.
  - intros k Hk. rewrite lookup_spread, Hk. reflexivity.
Qed.

Lemma updateModel_key_without_provider_witness :
  is_Some (key_only_updates !! "apiKey")
  /\ requests (updateModel "gpt" key_only_updates kms_ok gpt_state) = []
  /\ settled (updateModel "gpt" key_only_updates kms_ok gpt_state) = Fulfilled tt
  /\ forall m, m ∈ models gpt_state -> prop m "id" = VStr "gpt" ->
       exists m', m' ∈ models (store_after (updateModel "gpt" key_only_updates kms_ok gpt_state))
                  /\ m' !! "apiKey" = key_only_updates !! "apiKey"
                  /\ forall k, key_only_updates !! k = None -> m' !! k = m !! k.
Proof.
  assert (Hkey : is_Some (key_only_updates !! "apiKey")) by (eexists; reflexivity).
  split; [exact Hkey |].
  apply (updateModel_key_without_provider "gpt" key_only_updates kms_ok gpt_state Hkey).
  reflexivity.
Defined.


(** ** Calls in sequence *)

Lemma then_fulfilled (m k : Async unit) (svc : Service) (st : ModelState) :
  settled ((m >> k) svc st) = Fulfilled tt ->
  settled (m svc st) = Fulfilled tt
  /\ settled (k svc (store_after (m svc st))) = Fulfilled tt
  /\ store_after ((m >> k) svc st) = store_after (k svc (store_after (m svc st)))
  /\ requests ((m >> k) svc st)
     = requests (m svc st) ++ requests (k svc (store_after (m svc st))).
Proof.
  unfold bind. destruct (settled (m svc st)) as [[]|e]; simpl; [| discriminate].
  intros Hk. repeat split. exact Hk.
Qed.

Lemma find_by_id_app (id : value) (ms ms' : list JsObject) :
  find_by_id id (ms ++ ms')
  = match find_by_id id ms with
    | Some m => Some m
    | None => find_by_id id ms'
    end.
Proof.
  unfold find_by_id. induction ms as [|m ms IH]; simpl; [reflexivity |].
  destruct (strict_eq (prop m "id") id); [reflexivity | exact IH].
Qed.

Lemma without_id_added (id : value) (ms : list JsObject) (entry : JsObject) :
  id ∉ List.map (fun m => prop m "id") ms ->
  prop entry "id" = id ->
  without_id id (ms ++ [entry]) = ms.
Proof.
  intros Hnot Hid. unfold without_id. rewrite List.filter_app.
  fold (without_id id ms). rewrite (without_id_unknown _ _ Hnot). simpl.
  unfold strict_eq. rewrite bool_decide_eq_true_2 by exact Hid. simpl.
  apply app_nil_r.
Qed.

(** X11. After a fulfilled [addModel(model)], looking up the id of the
    model finds the entry just stored when the id was new, and the entry
    that already had this id when it was taken: the operations that look an
    id up then act on the older entry. *)
Theorem addModel_then_find (model : JsObject) (svc : Service) (st : ModelState) :
  settled (addModel model svc st) = Fulfilled tt ->
  find_by_id (prop model "id") (models (store_after (addModel model svc st)))
  = match find_by_id (prop model "id") (models st) with
    | Some old => Some old
    | None => Some (<["isCustom" := VBool true]> (delete "apiKey" model))
    end.
Proof.
  intros Hok. rewrite (addModel_fulfilled model svc st Hok).
  unfold merge, addModel_commit. simpl. rewrite find_by_id_app.
  destruct (find_by_id (prop model "id") (models st)); [reflexivity |].
  unfold find_by_id. simpl. unfold strict_eq.
  rewrite bool_decide_eq_true_2 by apply stored_entry_id. reflexivity.
Qed.

Lemma addModel_then_find_witness :
  settled (addModel duplicate_profile kms_ok initial_state) = Fulfilled tt
  /\ find_by_id (prop duplicate_profile "id")
       (models (store_after (addModel duplicate_profile kms_ok initial_state)))
     = head DEFAULT_MODELS.
Proof.
  split; [reflexivity |].
  exact (addModel_then_find duplicate_profile kms_ok initial_state eq_refl).
Defined.

(** X12. Adding a model under a new id and then removing it, both calls
    fulfilled, gives back the [models] there were. The active model is then
    the first entry of [models], not the one that was active before the
    two calls; in a store that was empty, [activeId] is left at the removed
    id. *)
Theorem addModel_then_removeModel
    (model : JsObject) (id : string) (svc : Service) (st : ModelState) :
  prop model "id" = VStr id ->
  VStr id ∉ ids st ->
  settled ((addModel model >> removeModel id) svc st) = Fulfilled tt ->
  models (store_after ((addModel model >> removeModel id) svc st)) = models st
  /\ activeId (store_after ((addModel model >> removeModel id) svc st))
     = match head (models st) with
       | Some first => if truthy (prop first "id") then prop first "id" else VStr ""
       | None => VStr id
       end.
Proof.
  intros Hid Hnew Hok.
  destruct (then_fulfilled _ _ _ _ Hok) as (Hadd & Hrem & -> & _).
  rewrite (removeModel_fulfilled _ _ _ Hrem).
  rewrite (addModel_fulfilled _ _ _ Hadd).
  unfold merge, removeModel_commit, addModel_commit. simpl.
  split.
  - apply without_id_added; [exact Hnew | rewrite stored_entry_id; exact Hid].
  - rewrite Hid. unfold strict_eq. rewrite bool_decide_eq_true_2 by reflexivity.
    destruct (models st) as [|first rest]; simpl; [| reflexivity].
    rewrite stored_entry_id, Hid. unfold js_or. simpl.
    destruct (String.eqb_spec id ""); simpl; congruence.
Qed.

Lemma addModel_then_removeModel_witness :
  (VStr "gpt" ∉ ids initial_state)
  /\ settled ((addModel gpt_profile >> removeModel "gpt") kms_ok initial_state) = Fulfilled tt
  /\ models (store_after ((addModel gpt_profile >> removeModel "gpt") kms_ok initial_state))
     = models initial_state
  /\ activeId (store_after ((addModel gpt_profile >> removeModel "gpt") kms_ok initial_state))
     = VStr "default".
Proof.
  assert (Hnew : VStr "gpt" ∉ ids initial_state).
  { vm_compute. intros Hin. apply list_elem_of_singleton in Hin. discriminate Hin. }
  split; [exact Hnew |]. split; [reflexivity |].
  exact (addModel_then_removeModel gpt_profile "gpt" kms_ok initial_state eq_refl Hnew eq_refl).
Defined.

Lemma stored_entry_provider (model : JsObject) :
  prop (<["isCustom" := VBool true]> (delete "apiKey" model)) "provider" = prop model "provider".
Proof.
  unfold prop. rewrite lookup_insert_ne by discriminate.
  rewrite lookup_delete_ne by discriminate. reflexivity.
Qed.

Lemma stored_entry_isCustom (model : JsObject) :
  prop (<["isCustom" := VBool true]> (delete "apiKey" model)) "isCustom" = VBool true.
Proof. unfold prop. rewrite lookup_insert_eq. reflexivity. Qed.

(** X13. A model added under a new id with a truthy provider is scratch
    configuration: selecting afterwards an entry whose provider is
    ["default"] requests the deletion of the key of the added model's
    provider and, both calls fulfilled, leaves exactly the [models] there
    were before the model was added, with the selected entry active. *)
Theorem addModel_then_back_to_default
    (model default_entry : JsObject) (id d : string) (svc : Service) (st : ModelState) :
  prop model "id" = VStr id ->
  VStr id ∉ ids st ->
  truthy (prop model "provider") = true ->
  find_by_id (VStr d) (models st) = Some default_entry ->
  prop default_entry "provider" = VStr "default" ->
  settled ((addModel model >> setActive d) svc st) = Fulfilled tt ->
  store_after ((addModel model >> setActive d) svc st)
  = {| models := models st; activeId := VStr d |}
  /\ requests ((addModel model >> setActive d) svc st)
     = requests (addModel model svc st) ++ [DeleteAPIKey (prop model "provider")].
Proof.
  intros Hid Hnew Hprov Hfind Hdef Hok.
  destruct (then_fulfilled _ _ _ _ Hok) as (Hadd & Hset & -> & ->).
  rewrite (addModel_fulfilled _ _ _ Hadd) in *.
  set (entry := <["isCustom" := VBool true]> (delete "apiKey" model)).
  assert (Hentry : prop entry "id" = VStr id).
  { unfold entry. rewrite stored_entry_id. exact Hid. }
  set (st1 := merge st (addModel_commit st model)) in *.
  assert (Hprev : find_by_id (activeId st1) (models st1) = Some entry).
  { unfold st1. simpl. rewrite Hid, find_by_id_app, (find_by_id_unknown _ _ Hnew).
    unfold find_by_id. simpl. unfold strict_eq.
    rewrite bool_decide_eq_true_2 by exact Hentry. reflexivity. }
  assert (Hnewm : find_by_id (VStr d) (models st1) = Some default_entry).
  { unfold st1. simpl. rewrite find_by_id_app, Hfind. reflexivity. }
  assert (Hdisc : discards (Some default_entry) (Some entry) = true).
  { unfold discards. simpl. rewrite Hdef. unfold entry.
    rewrite stored_entry_isCustom, stored_entry_provider, Hprov. reflexivity. }
  rewrite setActive_run in Hset |- *.
  unfold request_then_commit, setActive_request, setActive_commit in Hset |- *.
  rewrite Hprev, Hnewm, Hdisc in Hset |- *. simpl opt_prop in Hset |- *.
  assert (Hep : prop entry "provider" = prop model "provider")
    by apply stored_entry_provider.
  rewrite Hep in Hset |- *.
  destruct (svc (DeleteAPIKey (prop model "provider"))); [discriminate Hset |].
  split; [| reflexivity].
  unfold merge. simpl. f_equal. rewrite Hentry.
  apply without_id_added; [exact Hnew | exact Hentry].
Qed.

Lemma addModel_then_back_to_default_witness :
  (VStr "gpt" ∉ ids initial_state)
  /\ store_after ((addModel gpt_profile >> setActive "default") kms_ok initial_state)
     = {| models := models initial_state; activeId := VStr "default" |}
  /\ requests ((addModel gpt_profile >> setActive "default") kms_ok initial_state)
     = requests (addModel gpt_profile kms_ok initial_state) ++ [DeleteAPIKey (VStr "openai")].
Proof.
  assert (Hnew : VStr "gpt" ∉ ids initial_state).
  { vm_compute. intros Hin. apply list_elem_of_singleton in Hin. discriminate Hin. }
  split; [exact Hnew |].
  exact (addModel_then_back_to_default gpt_profile _ "gpt" "default" kms_ok initial_state
           eq_refl Hnew eq_refl eq_refl eq_refl eq_refl).
Defined.

(** X14. Once [removeModel(id)] has been fulfilled, calling it again sends
    no request, fulfils and leaves [models] as the first call left it. *)
Theorem removeModel_again (id : string) (svc svc' : Service) (st : ModelState) :
  settled (removeModel id svc st) = Fulfilled tt ->
  requests (removeModel id svc' (store_after (removeModel id svc st))) = []
  /\ settled (removeModel id svc' (store_after (removeModel id svc st))) = Fulfilled tt
  /\ models (store_after (removeModel id svc' (store_after (removeModel id svc st))))
     = models (store_after (removeModel id svc st)).
Proof.
  intros Hok. rewrite (removeModel_fulfilled id svc st Hok).
  set (st1 := merge st (removeModel_commit st id)).
  assert (Hgone : VStr id ∉ ids st1).
  { unfold st1, ids. simpl. rewrite elem_of_ids_without.
    intros [_ Hne]. contradiction Hne. reflexivity. }
  rewrite (removeModel_unknown_run id svc' st1 Hgone). simpl. repeat split.
Qed.

Lemma removeModel_again_witness :
  settled (removeModel "gpt" kms_ok gpt_state) = Fulfilled tt
  /\ requests (removeModel "gpt" (kms_down "offline")
                 (store_after (removeModel "gpt" kms_ok gpt_state))) = []
  /\ settled (removeModel "gpt" (kms_down "offline")
                (store_after (removeModel "gpt" kms_ok gpt_state))) = Fulfilled tt
  /\ models (store_after (removeModel "gpt" (kms_down "offline")
                            (store_after (removeModel "gpt" kms_ok gpt_state))))
     = models (store_after (removeModel "gpt" kms_ok gpt_state)).
Proof.
  split; [reflexivity |].
  apply (removeModel_again "gpt" kms_ok (kms_down "offline") gpt_state). reflexivity.
Defined.

(** ** What setActive may remove *)

Lemma unique_ids_same_entry (ms : list JsObject) (a b : JsObject) :
  NoDup (List.map (fun m => prop m "id") ms) ->
  a ∈ ms -> b ∈ ms -> prop a "id" = prop b "id" -> a = b.
Proof.
  induction ms as [|m ms IH]; simpl; intros Hnd Ha Hb Heq.
  - apply not_elem_of_nil in Ha. contradiction.
  - apply NoDup_cons in Hnd as [Hnot Hnd].
    assert (Hmem : forall x, x ∈ ms -> prop x "id" ∈ List.map (fun m => prop m "id") ms).
    { intros x Hx. apply list_elem_of_In, in_map_iff. exists x.
      split; [reflexivity | apply list_elem_of_In, Hx]. }
    apply elem_of_cons in Ha as [-> | Ha]; apply elem_of_cons in Hb as [-> | Hb].
    + reflexivity.
    + contradiction Hnot. rewrite Heq. apply Hmem, Hb.
    + contradiction Hnot. rewrite <- Heq. apply Hmem, Ha.
    + apply IH; assumption.
Qed.

(** X15. In a store with unique ids, the only entry [setActive] can take
    out of [models] is the one that was active, and only when its
    [isCustom] and its provider are truthy and the deletion of the key of
    that provider was the request sent: an entry that is not custom, such as
    the built-in one, is never removed by [setActive]. *)
Theorem setActive_removes_only_active_custom
    (id : string) (svc : Service) (st : ModelState) (m : JsObject) :
  unique_ids st ->
  m ∈ models st ->
  m ∉ models (store_after (setActive id svc st)) ->
  prop m "id" = activeId st
  /\ truthy (prop m "isCustom") = true
  /\ truthy (prop m "provider") = true
  /\ requests (setActive id svc st) = [DeleteAPIKey (prop m "provider")].
Proof.
  intros Hnd Hin. rewrite setActive_run.
  unfold request_then_commit, setActive_request, setActive_commit.
  destruct (discards _ _) eqn:Hd; simpl.
  - destruct (discards_previous _ _ Hd) as [previous Hp]. rewrite Hp in *. simpl.
    assert (Hout : m ∉ without_id (prop previous "id") (models st) -> m = previous).
    { intros Hout. destruct (find_by_id_some _ _ _ Hp) as [Hpin _].
      apply (unique_ids_same_entry (models st)); [exact Hnd | exact Hin | exact Hpin |].
      destruct (decide (prop m "id" = prop previous "id")) as [Heq | Hne]; [exact Heq |].
      contradiction Hout. apply without_id_spec. split; assumption. }
    unfold discards in Hd. simpl in Hd.
    apply andb_true_iff in Hd as [Hd Hprov]. apply andb_true_iff in Hd as [_ Hcustom].
    destruct (svc _); simpl; intros Hgone.
    + contradiction.
    + specialize (Hout Hgone). subst m.
      destruct (find_by_id_some _ _ _ Hp) as [_ Hpid]. repeat split; assumption.
  - intros Hgone. contradiction.
Qed.

Lemma setActive_removes_only_active_custom_witness :
  unique_ids gpt_state
  /\ gpt_stored ∈ models gpt_state
  /\ (gpt_stored ∉ models (store_after (setActive "default" kms_ok gpt_state)))
  /\ prop gpt_stored "id" = activeId gpt_state
  /\ truthy (prop gpt_stored "isCustom") = true
  /\ truthy (prop gpt_stored "provider") = true
  /\ requests (setActive "default" kms_ok gpt_state) = [DeleteAPIKey (prop gpt_stored "provider")].
Proof.
  assert (Hnd : unique_ids gpt_state).
  { unfold unique_ids. vm_compute. apply NoDup_cons. split.
    - intros Hin. apply list_elem_of_singleton in Hin. discriminate Hin.
    - apply NoDup_singleton. }
  assert (Hin : gpt_stored ∈ models gpt_state).
  { simpl. right. left. }
  assert (Hout : gpt_stored ∉ models (store_after (setActive "default" kms_ok gpt_state))).
  { replace (models (store_after (setActive "default" kms_ok gpt_state))) with DEFAULT_MODELS
      by (vm_compute; reflexivity).
    intros Hmem. apply list_elem_of_singleton in Hmem.
    apply (f_equal (fun o : JsObject => o !! "id")) in Hmem. vm_compute in Hmem.
    discriminate Hmem. }
  split; [exact Hnd |]. split; [exact Hin |]. split; [exact Hout |].
  exact (setActive_removes_only_active_custom "default" kms_ok gpt_state gpt_stored Hnd Hin Hout).
Defined.

(** ** No key in the store, over any sequence of calls *)

Lemma secret_free_step (op : Op) (svc : Service) (st : ModelState) :
  carries_no_key op ->
  Forall secret_free (models st) ->
  Forall secret_free (models (store_after (perform op svc st))).
Proof.
  intros Hop Hfree.
  destruct (store_after_perform op svc st) as [-> | ->]; [exact Hfree |].
  destruct op as [model|id updates|id|id]; simpl in *.
  - apply Forall_app. split; [exact Hfree |]. constructor; [| constructor].
    unfold secret_free. rewrite lookup_insert_ne by discriminate. apply lookup_delete_eq.
  - rewrite Forall_forall in *. intros m' Hin.
    apply list_elem_of_In, in_map_iff in Hin as (m & <- & Hm).
    apply list_elem_of_In in Hm. specialize (Hfree m Hm).
    destruct (strict_eq _ _); [| exact Hfree].
    unfold secret_free. rewrite lookup_spread, Hop. exact Hfree.
  - unfold setActive_commit. destruct (discards _ _); simpl; [| exact Hfree].
    rewrite Forall_forall in *. intros m Hin. apply without_id_spec in Hin as [Hin _]. auto.
  - rewrite Forall_forall in *. intros m Hin. apply without_id_spec in Hin as [Hin _]. auto.
Qed.

(** X16. Starting from a store without keys, and so from the initial one,
    any sequence of calls, fulfilled or rejected, leaves a store in which
    no entry has the [apiKey] property, provided no [updateModel] among
    them is given [updates] with the [apiKey] key: whatever [addModel] is
    given, the key is not stored. *)
Theorem secret_free_run_ops (calls : list (Op * Service)) (st : ModelState) :
  Forall (fun call => carries_no_key (fst call)) calls ->
  Forall secret_free (models st) ->
  Forall secret_free (models (run_ops calls st)).
Proof.
  unfold run_ops. revert st.
  induction calls as [|[op svc] calls IH]; simpl; intros st Hcalls Hfree; [exact Hfree |].
  apply Forall_cons in Hcalls as [Hop Hcalls].
  apply IH; [exact Hcalls |]. apply secret_free_step; assumption.
Qed.

Lemma secret_free_run_ops_witness :
  let calls := [ (AddModel gpt_profile, kms_ok);
                 (UpdateModel "gpt" {[ "name" := VStr "GPT-4" ]}, kms_ok);
                 (SetActive "default", kms_down "offline");
                 (RemoveModel "default", kms_ok) ] in
  Forall (fun call => carries_no_key (fst call)) calls
  /\ Forall secret_free (models initial_state)
  /\ Forall secret_free (models (run_ops calls initial_state)).
Proof.
  intros calls.
  assert (Hcalls : Forall (fun call => carries_no_key (fst call)) calls).
  { repeat constructor. }
  assert (Hfree : Forall secret_free (models initial_state)).
  { repeat constructor. }
  split; [exact Hcalls |]. split; [exact Hfree |].
  exact (secret_free_run_ops calls initial_state Hcalls Hfree).
Defined.


(** ** Entries added at run time are custom *)

Lemma built_in_or_custom_step (op : Op) (svc : Service) (st : ModelState) :
  no_update op ->
  Forall built_in_or_custom (models st) ->
  Forall built_in_or_custom (models (store_after (perform op svc st))).
Proof.
  intros Hop Hall.
  destruct (store_after_perform op svc st) as [-> | ->]; [exact Hall |].
  destruct op as [model|id updates|id|id]; simpl in *.
  - apply Forall_app. split; [exact Hall |]. constructor; [| constructor].
    right. apply stored_entry_isCustom.
  - contradiction.
  - unfold setActive_commit. destruct (discards _ _); simpl; [| exact Hall].
    rewrite Forall_forall in *. intros m Hin. apply without_id_spec in Hin as [Hin _]. auto.
  - rewrite Forall_forall in *. intros m Hin. apply without_id_spec in Hin as [Hin _]. auto.
Qed.

(** X17. From the initial store, after any sequence of [addModel],
    [setActive] and [removeModel] calls, fulfilled or rejected, every entry
    of [models] is either the built-in default entry or has
    [isCustom = true], whatever [isCustom] the profiles given to [addModel]
    carried. *)
Theorem built_in_or_custom_run_ops (calls : list (Op * Service)) :
  Forall (fun call => no_update (fst call)) calls ->
  Forall built_in_or_custom (models (run_ops calls initial_state)).
Proof.
  assert (Hgen : forall st,
            Forall (fun call => no_update (fst call)) calls ->
            Forall built_in_or_custom (models st) ->
            Forall built_in_or_custom (models (run_ops calls st))).
  { unfold run_ops. induction calls as [|[op svc] calls IH]; simpl; intros st Hcalls Hall;
      [exact Hall |].
    apply Forall_cons in Hcalls as [Hop Hcalls].
    apply IH; [exact Hcalls |]. apply built_in_or_custom_step; assumption. }
  intros Hcalls. apply Hgen; [exact Hcalls |].
  constructor; [left; left | constructor].
Qed.

Lemma built_in_or_custom_run_ops_witness :
  let calls := [ (AddModel (<["isCustom" := VBool false]> gpt_profile), kms_ok);
                 (SetActive "default", kms_down "offline");
                 (AddModel scratch_profile, kms_ok) ] in
  Forall (fun call => no_update (fst call)) calls
  /\ Forall built_in_or_custom (models (run_ops calls initial_state)).
Proof.
  intros calls.
  assert (Hcalls : Forall (fun call => no_update (fst call)) calls).
  { repeat constructor. }
  split; [exact Hcalls |].
  exact (built_in_or_custom_run_ops calls Hcalls).
Defined.

(** X18. [setActive(id)] never adds an entry to [models] and never alters
    one: what it leaves is a sublist of what it found. When it fulfils,
    [activeId] is [id], whether or not an entry has that id; when it
    rejects, the store is as it was. *)
Theorem setActive_result (id : string) (svc : Service) (st : ModelState) :
  sublist (models (store_after (setActive id svc st))) (models st)
  /\ match settled (setActive id svc st) with
     | Fulfilled _ => activeId (store_after (setActive id svc st)) = VStr id
     | Rejected _ => store_after (setActive id svc st) = st
     end.
Proof.
  rewrite setActive_run. unfold request_then_commit, setActive_request, setActive_commit.
  destruct (discards _ _); simpl.
  - destruct (svc _); simpl; split; try reflexivity.
    apply without_id_sublist.
  - split; reflexivity.
Qed.
